(** * TrenchSight mobile capture: the capture session controller

    A shallow embedding of the [MobileCapture] component
    (src/components/MobileCapture.jsx) and of the two pure helpers it
    uses, [formatFilename] and [distanceMeters].

    Conventions of the embedding.
    - The readings of the orientation sensor, on which the component
      subtracts and compares, are IEEE 754 binary64 numbers ([float]),
      with the rounding, the infinities and NaN of the source.
    - The other numbers (coordinates, battery level, storage sizes, zoom)
      are exact rationals ([Q]); every finite double is one.  Only
      [distanceMeters], which needs [sin], [cos], [asin] and [sqrt], is
      stated over the reals.
    - A JavaScript string is a [jsstring], a sequence of UTF-16 code
      units, which is what the regular expression of [formatFilename]
      scans.  A [string] is the text of a rendered number, made of ASCII
      characters only.
    - [null] and [undefined] are [None]. *)

From Stdlib Require Import Floats.
From Stdlib Require Import ZArith NArith QArith Qabs Qround Lia Bool List.
From Stdlib Require Import Qminmax Reals Qreals Psatz.
From Stdlib Require Import Ascii String.
From Stdlib.Strings Require Import Byte.
Import ListNotations.

#[local] Set Warnings "-inexact-float".

Local Open Scope string_scope.

(** ** JavaScript strings

    A string is a sequence of 16-bit code units.  A literal of the scope
    [js_scope] is read as UTF-8 and stands for the code units of its
    UTF-16 form: one unit for a character of the basic plane, a surrogate
    pair for any other. *)

Inductive jsstring : Type :=
| jnil
| jcons (unit : N) (rest : jsstring).

Declare Scope js_scope.
Delimit Scope js_scope with js.
Bind Scope js_scope with jsstring.

Fixpoint jappend (a b : jsstring) : jsstring :=
  match a with
  | jnil => b
  | jcons c a' => jcons c (jappend a' b)
  end.

Infix "++" := jappend : js_scope.

Fixpoint jlength (s : jsstring) : nat :=
  match s with
  | jnil => O
  | jcons _ s' => S (jlength s')
  end.

(** The code units of a text made of ASCII characters. *)
Fixpoint of_ascii (s : string) : jsstring :=
  match s with
  | EmptyString => jnil
  | String c s' => jcons (N_of_ascii c) (of_ascii s')
  end.

Definition continuation_byte (b : N) : bool := (128 <=? b)%N && (b <? 192)%N.

Fixpoint decode_utf8 (bs : list N) : option jsstring :=
  match bs with
  | [] => Some jnil
  | b0 :: r0 =>
      if (b0 <? 128)%N then option_map (jcons b0) (decode_utf8 r0)
      else if (b0 <? 192)%N then None
      else if (b0 <? 224)%N then
        match r0 with
        | b1 :: r1 =>
            if continuation_byte b1
            then option_map (jcons ((b0 - 192) * 64 + (b1 - 128))) (decode_utf8 r1)
            else None
        | _ => None
        end
      else if (b0 <? 240)%N then
        match r0 with
        | b1 :: b2 :: r2 =>
            if continuation_byte b1 && continuation_byte b2
            then option_map
                   (jcons ((b0 - 224) * 4096 + (b1 - 128) * 64 + (b2 - 128)))
                   (decode_utf8 r2)
            else None
        | _ => None
        end
      else if (b0 <? 248)%N then
        match r0 with
        | b1 :: b2 :: b3 :: r3 =>
            if continuation_byte b1 && continuation_byte b2 && continuation_byte b3
            then
              let point := ((b0 - 240) * 262144 + (b1 - 128) * 4096
                            + (b2 - 128) * 64 + (b3 - 128))%N in
              let v := (point - 65536)%N in
              option_map
                (fun s => jcons (55296 + v / 1024) (jcons (56320 + v mod 1024) s))
                (decode_utf8 r3)
            else None
        | _ => None
        end
      else None
  end.

Definition of_utf8 (bs : list byte) : option jsstring :=
  decode_utf8 (map Byte.to_N bs).

Fixpoint encode_utf8 (s : jsstring) : option (list N) :=
  match s with
  | jnil => Some []
  | jcons c s' =>
      match encode_utf8 s' with
      | None => None
      | Some l =>
          if (c <? 128)%N then Some (c :: l)
          else if (c <? 2048)%N then Some (192 + c / 64 :: 128 + c mod 64 :: l)%N
          else if ((c <? 55296) || ((57344 <=? c) && (c <? 65536)))%N
          then Some (224 + c / 4096 :: 128 + (c / 64) mod 64 :: 128 + c mod 64 :: l)%N
          else None
      end
  end.

Definition to_utf8 (s : jsstring) : option (list byte) :=
  match encode_utf8 s with
  | Some l =>
      fold_right
        (fun n acc =>
           match Byte.of_N n, acc with
           | Some b, Some bs => Some (b :: bs)
           | _, _ => None
           end)
        (Some []) l
  | None => None
  end.

String Notation jsstring of_utf8 to_utf8 : js_scope.

(** ** The platform functions the component calls *)

Module JS.

(** *** Comparisons on numbers *)

Definition Qlt_bool (x y : Q) : bool := negb (Qle_bool y x).

(** *** Strings *)

Fixpoint repeat_string (fill : string) (n : nat) : string :=
  match n with
  | O => ""
  | S n' => fill ++ repeat_string fill n'
  end.

Fixpoint take (n : nat) (s : string) : string :=
  match n, s with
  | S n', String c s' => String c (take n' s')
  | _, _ => ""
  end.

Fixpoint drop (n : nat) (s : string) : string :=
  match n, s with
  | S n', String _ s' => drop n' s'
  | _, _ => s
  end.

(** [String.prototype.padStart(maxLength, fill)]: the receiver is returned
    unchanged when it is already long enough or the filler is empty,
    otherwise the filler is repeated and truncated to the missing length. *)
Definition padStart (s : string) (maxLength : nat) (fill : string) : string :=
  let stringLength := String.length s in
  if (maxLength <=? stringLength)%nat then s
  else if (String.length fill =? 0)%nat then s
  else
    let fillLen := (maxLength - stringLength)%nat in
    take fillLen (repeat_string fill fillLen) ++ s.

(** *** Character classes and global replacement

    The only regular expressions of the component are single character
    classes, written with ASCII characters and used with the [g] flag
    and without the [u] flag, so [replace] scans the string one code unit
    at a time. *)

Inductive class_item : Type :=
| Range (lo hi : ascii)
| Lit (c : ascii).

Record char_class : Type := {
  negated : bool;
  items : list class_item
}.

Definition item_matches (it : class_item) (c : N) : bool :=
  match it with
  | Range lo hi => (N_of_ascii lo <=? c)%N && (c <=? N_of_ascii hi)%N
  | Lit d => (N_of_ascii d =? c)%N
  end.

Definition class_matches (cls : char_class) (c : N) : bool :=
  xorb (negated cls) (existsb (fun it => item_matches it c) (items cls)).

Fixpoint replace_global (cls : char_class) (replacement : jsstring) (s : jsstring)
  : jsstring :=
  match s with
  | jnil => jnil
  | jcons c s' =>
      ((if class_matches cls c then replacement else jcons c jnil)
         ++ replace_global cls replacement s')%js
  end.

(** *** Decimal rendering of non-negative integers: [String(n)] *)

Definition digit_char (d : N) : ascii := ascii_of_N (48 + d).

Fixpoint digits_from (fuel : nat) (n : N) (acc : string) : string :=
  match fuel with
  | O => acc
  | S fuel' =>
      let acc' := String (digit_char (n mod 10)) acc in
      if (n / 10 =? 0)%N then acc' else digits_from fuel' (n / 10) acc'
  end.

Definition decimal_digits (n : N) : string :=
  digits_from (S (N.to_nat (N.log2 n))) n "".

(** *** [Number.prototype.toFixed] *)

(** "Let n be an integer for which n / 10^f - x is as close to zero as
    possible.  If there are two such n, pick the larger n." *)
Definition nearest_integer (x : Q) (f : nat) : Z :=
  Qfloor (x * inject_Z (10 ^ Z.of_nat f) + (1 # 2)).

Section ToFixed.

(** The rendering of a number of magnitude 10^21 or more goes through
    [Number::toString], which is left abstract. *)
Variable NumberToString : Q -> string.

(** [String(n)] for a non-negative integer: its decimal digits, and from
    10^21 on the exponent form of [Number::toString]. *)
Definition ToString (n : N) : string :=
  if (n <? 10 ^ 21)%N then decimal_digits n
  else NumberToString (inject_Z (Z.of_N n)).

Definition toFixed (x : Q) (f : nat) : string :=
  let s := if Qlt_bool x 0 then "-" else "" in
  let x := if Qlt_bool x 0 then Qopp x else x in
  if Qle_bool (inject_Z (10 ^ 21)) x then s ++ NumberToString x
  else
    let n := Z.to_N (nearest_integer x f) in
    let m := if (n =? 0)%N then "0" else decimal_digits n in
    let m :=
      if (f =? 0)%nat then m
      else
        let k := String.length m in
        let m := if (k <=? f)%nat then repeat_string "0" (f + 1 - k) ++ m else m in
        let k := String.length m in
        take (k - f) m ++ "." ++ drop (k - f) m
    in
    s ++ m.

End ToFixed.

End JS.

(** ** Coordinates *)

Record Coordinate : Type := {
  latitude : Q;
  longitude : Q
}.

(** ** FilenameGenerator *)

Module Filename.

Record filename_args : Type := {
  arg_siteName : jsstring;
  arg_date : jsstring;
  arg_seq : N;
  arg_lat : Q;
  arg_lng : Q
}.

(** The class [[^a-zA-Z0-9_-]]. *)
Definition unsafe_chars : JS.char_class :=
  {| JS.negated := true;
     JS.items := [JS.Range "a" "z"; JS.Range "A" "Z"; JS.Range "0" "9";
                  JS.Lit "_"; JS.Lit "-"] |}.

Section WithNumberToString.

Variable NumberToString : Q -> string.

Definition formatFilename (a : filename_args) : jsstring :=
  let safeSite := JS.replace_global unsafe_chars "_" (arg_siteName a) in
  let d := arg_date a in
  (safeSite ++ "_" ++ d ++ "_"
     ++ of_ascii (JS.padStart (JS.ToString NumberToString (arg_seq a)) 3 "0") ++ "_"
     ++ of_ascii (JS.toFixed NumberToString (arg_lat a) 6) ++ "_"
     ++ of_ascii (JS.toFixed NumberToString (arg_lng a) 6) ++ ".jpg")%js.

End WithNumberToString.

End Filename.


(** ** Haversine distance *)

(** [distanceMeters] over the real numbers: the function that the
    double-precision arithmetic of the source approximates.  What is
    proved of it is a fact of the formula, not of its rounding. *)
Module Haversine.

Local Open Scope R_scope.

Definition toRad (x : Q) : R := Q2R x * PI / 180.

(** [!a || !b] holds of a [null] argument only: a coordinate is an object. *)
Definition distanceMeters (a b : option Coordinate) : R :=
  match a, b with
  | Some a, Some b =>
      let R := 6371000 in
      let dLat := toRad (latitude b - latitude a) in
      let dLon := toRad (longitude b - longitude a) in
      let lat1 := toRad (latitude a) in
      let lat2 := toRad (latitude b) in
      let h := sin (dLat / 2) ^ 2 + cos lat1 * cos lat2 * sin (dLon / 2) ^ 2 in
      2 * R * asin (sqrt h)
  | _, _ => 0
  end.

End Haversine.

(** ** CaptureSessionController: the [MobileCapture] component *)

Module Controller.

Local Open Scope js_scope.

(** The component is modelled as a transition system over its state
    variables, its refs and its pending asynchronous calls.  JavaScript
    runs one event at a time: each sensor callback, click or resumption
    of an [await] runs to its next [await] against the render committed
    before it, its state updates are batched, and the new render is
    committed (and the effect that registers the sensor listeners is run
    again) before the next event. *)

(** *** State variables

    One [Render] holds the value of every [useState] variable as one
    render of the component sees it.  The closures created by a render
    (the click handlers, [createSession], [captureAndUpload]) read these
    values and keep reading them across their [await]s. *)

Inductive Mode : Type := Half | One.   (* '0.5x' | '1x' *)

Record Render : Type := mkRender {
  siteName : jsstring;
  date : jsstring;
  coords : option Coordinate;
  headingRef : option float;
  pitchRef : option float;
  zoom : Q;
  mode : Mode;
  seq : N;
  started : bool;
  startCoords : option Coordinate;
  distance : R;
  batteryLow : bool;
  storageOk : bool;
  angleBaseline : option float;
  angleWarning : bool;
  capturing : bool
}.

Definition setSiteName (v : jsstring) (r : Render) : Render :=
  mkRender v (date r) (coords r) (headingRef r) (pitchRef r) (zoom r) (mode r)
    (seq r) (started r) (startCoords r) (distance r) (batteryLow r) (storageOk r)
    (angleBaseline r) (angleWarning r) (capturing r).

Definition setDate (v : jsstring) (r : Render) : Render :=
  mkRender (siteName r) v (coords r) (headingRef r) (pitchRef r) (zoom r) (mode r)
    (seq r) (started r) (startCoords r) (distance r) (batteryLow r) (storageOk r)
    (angleBaseline r) (angleWarning r) (capturing r).

Definition setCoords (v : option Coordinate) (r : Render) : Render :=
  mkRender (siteName r) (date r) v (headingRef r) (pitchRef r) (zoom r) (mode r)
    (seq r) (started r) (startCoords r) (distance r) (batteryLow r) (storageOk r)
    (angleBaseline r) (angleWarning r) (capturing r).

Definition setHeadingRef (v : option float) (r : Render) : Render :=
  mkRender (siteName r) (date r) (coords r) v (pitchRef r) (zoom r) (mode r)
    (seq r) (started r) (startCoords r) (distance r) (batteryLow r) (storageOk r)
    (angleBaseline r) (angleWarning r) (capturing r).

Definition setPitchRef (v : option float) (r : Render) : Render :=
  mkRender (siteName r) (date r) (coords r) (headingRef r) v (zoom r) (mode r)
    (seq r) (started r) (startCoords r) (distance r) (batteryLow r) (storageOk r)
    (angleBaseline r) (angleWarning r) (capturing r).

Definition setZoom (v : Q) (r : Render) : Render :=
  mkRender (siteName r) (date r) (coords r) (headingRef r) (pitchRef r) v (mode r)
    (seq r) (started r) (startCoords r) (distance r) (batteryLow r) (storageOk r)
    (angleBaseline r) (angleWarning r) (capturing r).

Definition setMode (v : Mode) (r : Render) : Render :=
  mkRender (siteName r) (date r) (coords r) (headingRef r) (pitchRef r) (zoom r) v
    (seq r) (started r) (startCoords r) (distance r) (batteryLow r) (storageOk r)
    (angleBaseline r) (angleWarning r) (capturing r).

(** [setSeq] is only ever called with an updater function. *)
Definition setSeq (f : N -> N) (r : Render) : Render :=
  mkRender (siteName r) (date r) (coords r) (headingRef r) (pitchRef r) (zoom r) (mode r)
    (f (seq r)) (started r) (startCoords r) (distance r) (batteryLow r) (storageOk r)
    (angleBaseline r) (angleWarning r) (capturing r).

Definition setStarted (v : bool) (r : Render) : Render :=
  mkRender (siteName r) (date r) (coords r) (headingRef r) (pitchRef r) (zoom r) (mode r)
    (seq r) v (startCoords r) (distance r) (batteryLow r) (storageOk r)
    (angleBaseline r) (angleWarning r) (capturing r).

Definition setStartCoords (v : option Coordinate) (r : Render) : Render :=
  mkRender (siteName r) (date r) (coords r) (headingRef r) (pitchRef r) (zoom r) (mode r)
    (seq r) (started r) v (distance r) (batteryLow r) (storageOk r)
    (angleBaseline r) (angleWarning r) (capturing r).

Definition setDistance (v : R) (r : Render) : Render :=
  mkRender (siteName r) (date r) (coords r) (headingRef r) (pitchRef r) (zoom r) (mode r)
    (seq r) (started r) (startCoords r) v (batteryLow r) (storageOk r)
    (angleBaseline r) (angleWarning r) (capturing r).

Definition setBatteryLow (v : bool) (r : Render) : Render :=
  mkRender (siteName r) (date r) (coords r) (headingRef r) (pitchRef r) (zoom r) (mode r)
    (seq r) (started r) (startCoords r) (distance r) v (storageOk r)
    (angleBaseline r) (angleWarning r) (capturing r).

Definition setStorageOk (v : bool) (r : Render) : Render :=
  mkRender (siteName r) (date r) (coords r) (headingRef r) (pitchRef r) (zoom r) (mode r)
    (seq r) (started r) (startCoords r) (distance r) (batteryLow r) v
    (angleBaseline r) (angleWarning r) (capturing r).

Definition setAngleBaseline (v : option float) (r : Render) : Render :=
  mkRender (siteName r) (date r) (coords r) (headingRef r) (pitchRef r) (zoom r) (mode r)
    (seq r) (started r) (startCoords r) (distance r) (batteryLow r) (storageOk r)
    v (angleWarning r) (capturing r).

Definition setAngleWarning (v : bool) (r : Render) : Render :=
  mkRender (siteName r) (date r) (coords r) (headingRef r) (pitchRef r) (zoom r) (mode r)
    (seq r) (started r) (startCoords r) (distance r) (batteryLow r) (storageOk r)
    (angleBaseline r) v (capturing r).

Definition setCapturing (v : bool) (r : Render) : Render :=
  mkRender (siteName r) (date r) (coords r) (headingRef r) (pitchRef r) (zoom r) (mode r)
    (seq r) (started r) (startCoords r) (distance r) (batteryLow r) (storageOk r)
    (angleBaseline r) (angleWarning r) v.

(** The [useState] initialisers; [today] is
    [new Date().toISOString().slice(0, 10)] at mount time. *)
Definition initialRender (today : jsstring) : Render :=
  mkRender "" today None None None 1 One 0 false None 0%R false true None false false.

(** *** Refs and platform objects *)

(** A media stream, as far as the component looks into it: whether it
    has a first video track that answers [getCapabilities()] (without
    one, reading the capabilities throws a [TypeError]), and the zoom
    range [cap.zoom = {min, max}] of those capabilities, when there is
    one. *)
Record MediaStream : Type := {
  hasCapabilities : bool;
  zoomCap : option (Q * Q)
}.

Record VideoElement : Type := {
  srcObject : option MediaStream
}.

(** *** What the component does to the outside *)

(** What a [catch] receives: the reason of a rejected promise, or the
    [TypeError] of a property access on [null]. *)
Inductive error : Type :=
| Reason (message : jsstring)
| TypeError.

Inductive alert_message : Type :=
| CameraFailed (e : error)             (* 'Kamera acilamadi: ' + e.message *)
| SiteAndLocationRequired              (* 'Alan adi ve konum gerekli' *)
| NotEnoughStorage.                    (* 'Cihazda yeterli depolama alani yok' *)

(** Body of [POST /api/sessions]. *)
Record SessionBody : Type := {
  site_name : jsstring;
  body_date : jsstring;
  start_lat : Q;
  start_lng : Q;
  device : jsstring
}.

(** Form of [POST /api/photos]; [tilt_deg] and [heading_deg] are appended
    only when the reading is not [null]. *)
Record PhotoForm : Type := {
  session_id : jsstring;
  form_seq : N;
  lat : Q;
  lng : Q;
  tilt_deg : option float;
  heading_deg : option float;
  form_zoom : Q;
  filename : jsstring
}.

Inductive effect : Type :=
| Alert (m : alert_message)
| Confirm                         (* the low battery question *)
| GetUserMedia
| Play
| ApplyConstraints (to : Q)
| PostSessions (body : SessionBody)
| DrawImage
| ToBlob
| PostPhotos (form : PhotoForm)
| StopTracks.

(** *** Pending asynchronous calls

    An [async] function runs up to its next [await] and is resumed by a
    later event of its own.  A continuation records where the call waits
    and the render whose closures it runs. *)

Inductive caller : Type := ByStart | ByCapture.

Inductive cont : Type :=
| KGetUserMedia (r : Render)
| KPlay (r : Render) (stream : MediaStream)
| KApplyConstraints (r : Render) (to : Q)
| KFetchSession (r : Render) (c : caller)
| KJson (r : Render) (c : caller)
| KToBlob (r : Render) (sessionId : option jsstring)
| KFetchPhoto (r : Render).

Inductive jsval : Type :=
| VUndefined
| VStream (stream : MediaStream)
| VResponse (status : N)
| VJson (sessionId : option jsstring)    (* data.session_id *)
| VBlob.

Inductive settlement : Type :=
| Resolved (v : jsval)
| Rejected (message : jsstring).

(** What one run of a handler, or of a resumed call, amounts to: the
    batched state updates, the new value of [videoRef.current], the
    [await] it stops at (if it does not finish), and what it did. *)
Record reaction : Type := mkReaction {
  updates : Render -> Render;
  video : option VideoElement;
  awaits : option cont;
  out : list effect
}.

Definition finish (v : option VideoElement) (o : list effect) : reaction :=
  mkReaction (fun r => r) v None o.

Definition suspend (v : option VideoElement) (k : cont) (o : list effect) : reaction :=
  mkReaction (fun r => r) v (Some k) o.

Definition also (f : Render -> Render) (o : list effect) (x : reaction) : reaction :=
  mkReaction (fun r => updates x (f r)) (video x) (awaits x) (o ++ out x)%list.

(** *** The handlers *)

Definition truthy_string (v : jsstring) : bool :=
  match v with
  | jnil => false
  | jcons _ _ => true
  end.

Definition truthy_number (v : Q) : bool := negb (Qeq_bool v 0).

Definition is_null {A : Type} (v : option A) : bool :=
  match v with
  | Some _ => false
  | None => true
  end.

(** [!sid] for a session id that is a string or [undefined]. *)
Definition falsy_id (sid : option jsstring) : bool :=
  match sid with
  | Some v => negb (truthy_string v)
  | None => true
  end.

(** A [null] operand of an arithmetic operator counts as 0. *)
Definition ToNumber (v : option float) : float :=
  match v with
  | Some x => x
  | None => 0%float
  end.

(** [String(sessionId)], as [FormData.append] stores it. *)
Definition id_to_string (sid : option jsstring) : jsstring :=
  match sid with
  | Some v => v
  | None => "undefined"
  end.

Section Handlers.

Variable NumberToString : Q -> string.
Variable userAgent : jsstring.

(** The watchPosition callback. *)
Definition onPosition (lat lng : Q) (r : Render) : Render :=
  let c := {| latitude := lat; longitude := lng |} in
  let r1 := setCoords (Some c) r in
  match startCoords r with
  | None => setStartCoords (Some c) r1
  | Some sc => setDistance (Haversine.distanceMeters (Some sc) (Some c)) r1
  end.

(** [check] of the battery manager. *)
Definition onBatteryLevel (level : Q) (r : Render) : Render :=
  setBatteryLow (Qle_bool level (15 # 100)) r.

(** The callback of [navigator.storage.estimate()]. *)
Definition onStorageEstimate (quota usage : option Q) (r : Render) : Render :=
  match quota, usage with
  | Some q, Some u =>
      if truthy_number q && truthy_number u
      then
        let free := (q - u)%Q in
        setStorageOk (JS.Qlt_bool (inject_Z (100 * 1024 * 1024)) free) r
      else r
  | _, _ => r
  end.

(** [handleOrient]; [angleBaseline] and [started] are those of the render
    that registered the listener, and the effect registers it again each
    time one of them changes. *)
Definition handleOrient (alpha beta : option float) (r : Render) : Render :=
  let pitch := beta in
  let heading := alpha in
  let r1 := setPitchRef pitch (setHeadingRef heading r) in
  let r2 :=
    if is_null (angleBaseline r) && started r then setAngleBaseline pitch r1 else r1 in
  match angleBaseline r with
  | Some baseline =>
      let diff := PrimFloat.abs (PrimFloat.sub (ToNumber pitch) baseline) in
      setAngleWarning (PrimFloat.ltb 5%float diff) r2
  | None => r2
  end.

(** [captureAndUpload(sessionId)] up to [await new Promise(... toBlob ...)]. *)
Definition captureAndUpload (v : option VideoElement) (r : Render)
    (sessionId : option jsstring) : reaction :=
  match v with
  | None => finish v []
  | Some _ => suspend v (KToBlob r sessionId) [DrawImage; ToBlob]
  end.

(** [captureAndUpload] from the blob to [await fetch(.../api/photos)]; a
    [null] [coords] makes [current.latitude] throw. *)
Definition upload (v : option VideoElement) (r : Render)
    (sessionId : option jsstring) : reaction :=
  match coords r with
  | None => finish v []
  | Some current =>
      let name :=
        Filename.formatFilename NumberToString
          {| Filename.arg_siteName := siteName r;
             Filename.arg_date := date r;
             Filename.arg_seq := seq r + 1;
             Filename.arg_lat := latitude current;
             Filename.arg_lng := longitude current |} in
      let form :=
        {| session_id := id_to_string sessionId;
           form_seq := seq r + 1;
           lat := latitude current;
           lng := longitude current;
           tilt_deg := pitchRef r;
           heading_deg := headingRef r;
           form_zoom := zoom r;
           filename := name |} in
      suspend v (KFetchPhoto r) [PostPhotos form]
  end.

(** What the caller of [createSession] does with the id it gets:
    [onStart] tests it and flips [started] and [capturing]; the capture
    button passes it to [captureAndUpload]. *)
Definition withSessionId (c : caller) (v : option VideoElement) (r : Render)
    (sid : option jsstring) : reaction :=
  match c with
  | ByStart =>
      if falsy_id sid then finish v []
      else mkReaction (fun x => setCapturing true (setStarted true x)) v None []
  | ByCapture => captureAndUpload v r sid
  end.

(** [createSession] up to [await fetch(.../api/sessions)]; when it returns
    early its caller goes on with [undefined]. *)
Definition createSession (c : caller) (v : option VideoElement) (r : Render) : reaction :=
  match coords r with
  | Some at_ =>
      if truthy_string (siteName r)
      then
        suspend v (KFetchSession r c)
          [PostSessions {| site_name := siteName r;
                           body_date := date r;
                           start_lat := latitude at_;
                           start_lng := longitude at_;
                           device := userAgent |}]
      else also (fun x => x) [Alert SiteAndLocationRequired] (withSessionId c v r None)
  | None => also (fun x => x) [Alert SiteAndLocationRequired] (withSessionId c v r None)
  end.

(** [startCamera] up to [await getUserMedia(...)]. *)
Definition startCamera (v : option VideoElement) (r : Render) : reaction :=
  suspend v (KGetUserMedia r) [GetUserMedia].

(** The [catch] of [startCamera], and [onStart] going on after it:
    [startCamera] never rejects. *)
Definition cameraError (v : option VideoElement) (r : Render) (e : error) : reaction :=
  also (fun x => x) [Alert (CameraFailed e)] (createSession ByStart v r).

Definition onStart (v : option VideoElement) (r : Render) (confirmAnswer : bool) : reaction :=
  if negb (storageOk r) then finish v [Alert NotEnoughStorage]
  else if batteryLow r then
    if negb confirmAnswer then finish v [Confirm]
    else also (fun x => x) [Confirm] (startCamera v r)
  else startCamera v r.

Definition onStop (v : option VideoElement) : reaction :=
  let stream :=
    match v with
    | Some el => srcObject el
    | None => None
    end in
  mkReaction (fun x => setStarted false (setCapturing false x)) v None
    match stream with
    | Some _ => [StopTracks]
    | None => []
    end.

(** A pending call resumed with the outcome of what it awaited.  [None]
    is an outcome the awaited operation cannot have. *)
Definition resume (v : option VideoElement) (k : cont) (o : settlement) : option reaction :=
  match k, o with
  | KGetUserMedia r, Resolved (VStream stream) =>
      match v with
      | Some _ => Some (suspend (Some {| srcObject := Some stream |}) (KPlay r stream) [Play])
      | None => Some (cameraError v r TypeError)
      end
  | KGetUserMedia r, Rejected m => Some (cameraError v r (Reason m))
  | KPlay r stream, Resolved VUndefined =>
      if negb (hasCapabilities stream) then Some (cameraError v r TypeError)
      else
      match zoomCap stream with
      | Some (zmin, zmax) =>
          let desired := match mode r with Half => zmin | One => 1 end in
          let to := Qmin zmax (Qmax zmin desired) in
          Some (suspend v (KApplyConstraints r to) [ApplyConstraints to])
      | None => Some (createSession ByStart v r)
      end
  | KPlay r _, Rejected m => Some (cameraError v r (Reason m))
  | KApplyConstraints r to, Resolved VUndefined =>
      Some (also (setZoom to) [] (createSession ByStart v r))
  | KApplyConstraints r _, Rejected m => Some (cameraError v r (Reason m))
  | KFetchSession r c, Resolved (VResponse _) => Some (suspend v (KJson r c) [])
  | KFetchSession _ _, Rejected _ => Some (finish v [])
  | KJson r c, Resolved (VJson sid) => Some (withSessionId c v r sid)
  | KJson _ _, Rejected _ => Some (finish v [])
  | KToBlob r sid, Resolved VBlob => Some (upload v r sid)
  | KFetchPhoto _, Resolved (VResponse _) =>
      Some (mkReaction (setSeq (fun s => s + 1)%N) v None [])
  | KFetchPhoto _, Rejected _ => Some (finish v [])
  | _, _ => None
  end.

(** *** The component as a transition system *)

Inductive event : Type :=
| ChangeSiteName (v : jsstring)
| ChangeDate (v : jsstring)
| ClickMode (m : Mode)
| Position (lat lng : Q)
| BatteryLevel (level : Q)
| StorageEstimate (quota usage : option Q)
| DeviceOrientation (alpha beta : option float)
| ClickStart (confirmAnswer : bool)
| ClickCapture
| ClickStop
| Settle (id : nat) (o : settlement).

Record State : Type := mkState {
  render : Render;
  videoRef : option VideoElement;
  tasks : list (nat * cont);
  next_id : nat
}.

Definition initialState (today : jsstring) : State :=
  mkState (initialRender today) (Some {| srcObject := None |}) [] 0.

Fixpoint lookup (id : nat) (ts : list (nat * cont)) : option cont :=
  match ts with
  | [] => None
  | (i, k) :: ts' => if (i =? id)%nat then Some k else lookup id ts'
  end.

Fixpoint remove (id : nat) (ts : list (nat * cont)) : list (nat * cont) :=
  match ts with
  | [] => []
  | (i, k) :: ts' => if (i =? id)%nat then remove id ts' else (i, k) :: remove id ts'
  end.

Definition park (id : nat) (k : option cont) (ts : list (nat * cont)) : list (nat * cont) :=
  match k with
  | Some k' => (id, k') :: remove id ts
  | None => remove id ts
  end.

Definition with_render (f : Render -> Render) (s : State) : State :=
  mkState (f (render s)) (videoRef s) (tasks s) (next_id s).

(** A handler called by an event.  When it stops at an [await] the call
    is recorded as pending, under an id of its own. *)
Definition spawn (s : State) (x : reaction) : State * list effect :=
  match awaits x with
  | Some k =>
      (mkState (updates x (render s)) (video x)
         ((next_id s, k) :: tasks s) (S (next_id s)),
       out x)
  | None =>
      (mkState (updates x (render s)) (video x) (tasks s) (next_id s), out x)
  end.

(** A pending call going on. *)
Definition continue (s : State) (id : nat) (x : reaction) : State * list effect :=
  (mkState (updates x (render s)) (video x)
     (park id (awaits x) (tasks s)) (next_id s),
   out x).

(** One event, handled to completion against the committed render.  The
    start button exists only while [capturing] is false, the capture and
    stop buttons only while it is true, and the capture button is
    [disabled] while [angleWarning] is true. *)
Definition step (s : State) (e : event) : State * list effect :=
  let r := render s in
  match e with
  | ChangeSiteName v => (with_render (setSiteName v) s, [])
  | ChangeDate v => (with_render (setDate v) s, [])
  | ClickMode m => (with_render (setMode m) s, [])
  | Position la lo => (with_render (onPosition la lo) s, [])
  | BatteryLevel l => (with_render (onBatteryLevel l) s, [])
  | StorageEstimate q u => (with_render (onStorageEstimate q u) s, [])
  | DeviceOrientation a b => (with_render (handleOrient a b) s, [])
  | ClickStart a =>
      if capturing r then (s, []) else spawn s (onStart (videoRef s) r a)
  | ClickCapture =>
      if capturing r && negb (angleWarning r)
      then spawn s (createSession ByCapture (videoRef s) r)
      else (s, [])
  | ClickStop =>
      if capturing r then spawn s (onStop (videoRef s)) else (s, [])
  | Settle id o =>
      match lookup id (tasks s) with
      | Some k =>
          match resume (videoRef s) k o with
          | Some x => continue s id x
          | None => (s, [])
          end
      | None => (s, [])
      end
  end.

Fixpoint run (s : State) (es : list event) : State * list effect :=
  match es with
  | [] => (s, [])
  | e :: es' =>
      let (s1, o1) := step s e in
      let (s2, o2) := run s1 es' in
      (s2, (o1 ++ o2)%list)
  end.

End Handlers.

End Controller.

(** * What the specification says, in its own words *)

Module FilenameSpec.

(** "every character outside [[A-Za-z0-9_-]]", a character being a code
    unit: A-Z are the units 65 to 90, a-z 97 to 122, 0-9 48 to 57, [_] is
    95 and [-] is 45. *)
Definition allowed (c : N) : bool :=
  ((65 <=? c) && (c <=? 90) || (97 <=? c) && (c <=? 122)
   || (48 <=? c) && (c <=? 57) || (c =? 95) || (c =? 45))%N.

(** "replacing every character outside ... with [_] (no collapsing)" *)
Fixpoint safeSite (s : jsstring) : jsstring :=
  match s with
  | jnil => jnil
  | jcons c s' => jcons (if allowed c then c else N_of_ascii "_") (safeSite s')
  end.

(** The [j] lowest decimal digits of [n], most significant first. *)
Fixpoint place_digits (j : nat) (n : N) : string :=
  match j with
  | O => ""
  | S j' => place_digits j' (n / 10) ++ String (JS.digit_char (n mod 10)) ""
  end.

(** "zero-padded to 3 digits (values >= 1000 ... render with their natural
    width)" *)
Definition seq3 (n : N) : string :=
  if (n <? 1000)%N then place_digits 3 n else JS.decimal_digits n.

(** "rendered with exactly 6 fractional digits": the sign, the integer
    part of the magnitude rounded to the nearest multiple of 10^-6, a dot,
    and the six digits after it. *)
Definition fixed6 (x : Q) : string :=
  let n := Z.to_N (JS.nearest_integer (Qabs x) 6) in
  (if JS.Qlt_bool x 0 then "-" else "")
    ++ JS.decimal_digits (n / 10 ^ 6) ++ "." ++ place_digits 6 n.

End FilenameSpec.

(** Notions the statements about the controller are phrased in. *)

Module ControllerSpec.

Import Controller.

Local Open Scope js_scope.

(** The angular deviation of the current pitch from a baseline, as
    JavaScript computes [Math.abs(pitch - baseline)]: the difference is
    rounded to the nearest double, and a [null] pitch counts as 0. *)
Definition deviation (r : Render) (baseline : float) : float :=
  PrimFloat.abs (PrimFloat.sub (ToNumber (pitchRef r)) baseline).

(** [d > 5] on doubles; false of NaN. *)
Definition exceeds_tolerance (d : float) : Prop :=
  PrimFloat.ltb 5%float d = true.

(** "[angleWarning] is true iff [|currentPitch - AngleBaseline| > 5],
    false while AngleBaseline is unset." *)
Definition angle_consistent (r : Render) : Prop :=
  match angleBaseline r with
  | Some b => angleWarning r = true <-> exceeds_tolerance (deviation r b)
  | None => angleWarning r = false
  end.

(** The capture button can be pressed. *)
Definition capture_enabled (r : Render) : bool :=
  capturing r && negb (angleWarning r).

(** The event is the [POST /api/photos] request of a pending capture
    being answered. *)
Definition upload_resolves (s : State) (e : event) : bool :=
  match e with
  | Settle id (Resolved (VResponse _)) =>
      match lookup id (tasks s) with
      | Some (KFetchPhoto _) => true
      | _ => false
      end
  | _ => false
  end.

Definition is_PostSessions (x : effect) : bool :=
  match x with
  | PostSessions _ => true
  | _ => false
  end.

Definition is_PostPhotos (x : effect) : bool :=
  match x with
  | PostPhotos _ => true
  | _ => false
  end.

(** The session ids the uploads of a trace carry, in order. *)
Fixpoint upload_session_ids (o : list effect) : list jsstring :=
  match o with
  | [] => []
  | PostPhotos f :: o' => session_id f :: upload_session_ids o'
  | _ :: o' => upload_session_ids o'
  end.

(** The sequence numbers the uploads of a trace carry, in order. *)
Fixpoint upload_seqs (o : list effect) : list N :=
  match o with
  | [] => []
  | PostPhotos f :: o' => form_seq f :: upload_seqs o'
  | _ :: o' => upload_seqs o'
  end.

(** An update that leaves the sensor readings, and what the sensor
    callbacks derive from them, alone: the asynchronous handlers and the
    buttons write [zoom], [seq], [started] and [capturing] only. *)
Definition sensors_kept (f : Render -> Render) : Prop :=
  forall r,
    siteName (f r) = siteName r /\ date (f r) = date r /\
    coords (f r) = coords r /\ startCoords (f r) = startCoords r /\
    headingRef (f r) = headingRef r /\ pitchRef (f r) = pitchRef r /\
    batteryLow (f r) = batteryLow r /\ storageOk (f r) = storageOk r /\
    angleBaseline (f r) = angleBaseline r /\ angleWarning (f r) = angleWarning r.

(** The render a pending call runs in. *)
Definition snapshot (k : cont) : Render :=
  match k with
  | KGetUserMedia r => r
  | KPlay r _ => r
  | KApplyConstraints r _ => r
  | KFetchSession r _ => r
  | KJson r _ => r
  | KToBlob r _ => r
  | KFetchPhoto r => r
  end.

(** The call is past the check of [createSession]. *)
Definition past_check (k : cont) : bool :=
  match k with
  | KFetchSession _ _ | KJson _ _ => true
  | _ => false
  end.

(** A position is known while a session is active: [coords] never goes
    back to [null], and a call gets past [createSession] only in a render
    that has one. *)
Definition position_known (s : State) : Prop :=
  (capturing (render s) = true -> coords (render s) <> None)
  /\ forall id k, lookup id (tasks s) = Some k ->
       (coords (snapshot k) <> None -> coords (render s) <> None)
       /\ (past_check k = true -> coords (snapshot k) <> None).

(** Ids of pending calls are below the next id to hand out. *)
Definition fresh_ids (s : State) : Prop :=
  forall id k, lookup id (tasks s) = Some k -> (id < next_id s)%nat.

(** The call [id] of [onStart], made at render [r], is pending in
    [startCamera] or over. *)
Definition starting (r : Render) (k : option cont) : Prop :=
  match k with
  | None => True
  | Some (KGetUserMedia r') => r' = r
  | Some (KPlay r' _) => r' = r
  | Some (KApplyConstraints r' _) => r' = r
  | Some _ => False
  end.

(** The call [id] of the capture button, made at render [r], is pending
    or over; once it holds a session id, that id was delivered to it by
    one of the events [past], or is [undefined] because [createSession]
    refused. *)
Definition capture_call (id : nat) (r : Render) (past : list event)
    (k : option cont) : Prop :=
  match k with
  | None => True
  | Some (KFetchSession r' ByCapture) => r' = r
  | Some (KJson r' ByCapture) => r' = r
  | Some (KToBlob r' sid) =>
      r' = r /\
      (In (Settle id (Resolved (VJson sid))) past
       \/ (sid = None /\ (siteName r = "" \/ coords r = None)))
  | Some (KFetchPhoto r') => r' = r
  | Some _ => False
  end.

End ControllerSpec.

(** Concrete runs, used to exhibit behaviours. *)

Module Scenario.

Import Controller.

Local Open Scope js_scope.

Definition numberToString (x : Q) : string := EmptyString.

Definition agent : jsstring := "TrenchSight-field-phone".

Definition day : jsstring := "2024-05-01".

Definition step := Controller.step numberToString agent.

Definition run := Controller.run numberToString agent.

Definition init : State := initialState day.

Definition plain_stream : jsval :=
  VStream {| hasCapabilities := true; zoomCap := None |}.

(** The operator names the site, a position arrives, and a session is
    started: the camera opens and the backend answers with id "S1". *)
Definition start_session (call : nat) (sid : jsstring) : list event :=
  [ClickStart true;
   Settle call (Resolved plain_stream);
   Settle call (Resolved VUndefined);
   Settle call (Resolved (VResponse 200));
   Settle call (Resolved (VJson (Some sid)))].

Definition to_active : list event :=
  ([ChangeSiteName "Trench Alpha!"; Position 41.015137 28.979530]
     ++ start_session 0 "S1")%list.

(** The backend answers the session request of capture [call] with [sid]. *)
Definition session_answer (call : nat) (sid : jsstring) : list event :=
  [Settle call (Resolved (VResponse 200));
   Settle call (Resolved (VJson (Some sid)))].

Definition active : State := fst (run init to_active).

(** The form the first capture of that session uploads. *)
Definition first_form (sid : jsstring) : PhotoForm :=
  {| session_id := sid;
     form_seq := 1;
     lat := 41.015137;
     lng := 28.979530;
     tilt_deg := None;
     heading_deg := None;
     form_zoom := 1;
     filename := "Trench_Alpha__2024-05-01_001_41.015137_28.979530.jpg" |}.

End Scenario.

(** Further notions, for the properties of the code beyond the
    specification's sentences. *)

Module CodeSpec.

Import Controller.

Local Open Scope js_scope.

(** The number a string of decimal digits stands for. *)
Definition digit_value (c : ascii) : N := N_of_ascii c - 48.

Fixpoint read_digits (acc : N) (s : string) : N :=
  match s with
  | EmptyString => acc
  | String c s' => read_digits (acc * 10 + digit_value c) s'
  end.

Definition is_digit (c : ascii) : bool :=
  (48 <=? N_of_ascii c)%N && (N_of_ascii c <=? 57)%N.

Fixpoint all_chars (p : ascii -> bool) (s : string) : bool :=
  match s with
  | EmptyString => true
  | String c s' => p c && all_chars p s'
  end.

Fixpoint all_units (p : N -> bool) (s : jsstring) : bool :=
  match s with
  | jnil => true
  | jcons c s' => p c && all_units p s'
  end.

(** A request to the backend. *)
Definition is_request (x : effect) : bool :=
  match x with
  | PostSessions _ | PostPhotos _ => true
  | _ => false
  end.

(** No request to the backend comes before the first [getUserMedia]. *)
Fixpoint camera_first (o : list effect) : bool :=
  match o with
  | [] => true
  | GetUserMedia :: _ => true
  | x :: o' => negb (is_request x) && camera_first o'
  end.

(** Nothing is pending and no session is active. *)
Definition idle (s : State) : Prop :=
  tasks s = [] /\ capturing (render s) = false.

(** The body [createSession] sends from render [r] at position [p]. *)
Definition session_body (agent : jsstring) (r : Render) (p : Coordinate) : SessionBody :=
  {| site_name := siteName r;
     body_date := date r;
     start_lat := latitude p;
     start_lng := longitude p;
     device := agent |}.

(** The call [id] of [onStart], made at render [r], is pending or over. *)
Definition start_call (r : Render) (k : option cont) : Prop :=
  match k with
  | None => True
  | Some (KGetUserMedia r') => r' = r
  | Some (KPlay r' _) => r' = r
  | Some (KApplyConstraints r' _) => r' = r
  | Some (KFetchSession r' ByStart) => r' = r
  | Some (KJson r' ByStart) => r' = r
  | Some _ => False
  end.

(** The call [id] of the capture button, made at render [r], is pending
    or over. *)
Definition capture_pending (r : Render) (k : option cont) : Prop :=
  match k with
  | None => True
  | Some (KFetchSession r' ByCapture) => r' = r
  | Some (KJson r' ByCapture) => r' = r
  | Some (KToBlob r' _) => r' = r
  | Some (KFetchPhoto r') => r' = r
  | Some _ => False
  end.

(** The latest battery level of a run, if any. *)
Fixpoint last_battery (es : list event) (seen : option Q) : option Q :=
  match es with
  | [] => seen
  | BatteryLevel l :: es' => last_battery es' (Some l)
  | _ :: es' => last_battery es' seen
  end.

End CodeSpec.

(** * Facts about the platform functions *)

Lemma Qlt_bool_iff (x y : Q) : JS.Qlt_bool x y = true <-> (x < y)%Q.
Proof.
  unfold JS.Qlt_bool. rewrite negb_true_iff. split.
  - intros H. apply Qnot_le_lt. intros Hle.
    apply Qle_bool_iff in Hle. congruence.
  - intros H. destruct (Qle_bool y x) eqn:E; [|reflexivity].
    apply Qle_bool_iff in E. exfalso. exact (Qlt_not_le _ _ H E).
Qed.

Lemma append_nil_r (s : string) : s ++ "" = s.
Proof. induction s as [|c s IH]; simpl; congruence. Qed.

Lemma append_assoc (a b c : string) : (a ++ b) ++ c = a ++ (b ++ c).
Proof. induction a as [|x a IH]; simpl; congruence. Qed.

Lemma length_append (a b : string) :
  String.length (a ++ b) = (String.length a + String.length b)%nat.
Proof. induction a as [|x a IH]; simpl; congruence. Qed.

Lemma take_app_exact (a b : string) : JS.take (String.length a) (a ++ b) = a.
Proof. induction a as [|x a IH]; simpl; [destruct b|]; congruence. Qed.

Lemma drop_app_exact (a b : string) : JS.drop (String.length a) (a ++ b) = b.
Proof. induction a as [|x a IH]; simpl; congruence. Qed.

Lemma length_repeat_char (c : ascii) (n : nat) :
  String.length (JS.repeat_string (String c "") n) = n.
Proof. induction n as [|n IH]; simpl; congruence. Qed.

Lemma take_all (s : string) : JS.take (String.length s) s = s.
Proof. induction s as [|c s IH]; simpl; congruence. Qed.

(** ** Decimal digits *)

Lemma digits_from_acc (fuel : nat) :
  forall n acc, JS.digits_from fuel n acc = JS.digits_from fuel n "" ++ acc.
Proof.
  induction fuel as [|fuel IH]; intros n acc; simpl; [reflexivity|].
  destruct (n / 10 =? 0)%N.
  - reflexivity.
  - rewrite IH. rewrite (IH _ (String _ "")).
    rewrite append_assoc. reflexivity.
Qed.

Lemma div10_lt_pow2 (n : N) (f : nat) :
  (n < 2 ^ N.of_nat (S f))%N -> (n / 10 < 2 ^ N.of_nat f)%N.
Proof.
  intros H. rewrite Nnat.Nat2N.inj_succ, N.pow_succ_r' in H.
  apply N.Div0.div_lt_upper_bound. lia.
Qed.

Lemma digits_from_enough (f1 : nat) :
  forall f2 n acc,
    (n < 2 ^ N.of_nat (S f1))%N -> (n < 2 ^ N.of_nat (S f2))%N ->
    JS.digits_from (S f1) n acc = JS.digits_from (S f2) n acc.
Proof.
  induction f1 as [|f1 IH]; intros f2 n acc H1 H2.
  - change (2 ^ N.of_nat 1)%N with 2%N in H1.
    cbn [JS.digits_from]. rewrite N.div_small by lia. reflexivity.
  - destruct f2 as [|f2].
    + change (2 ^ N.of_nat 1)%N with 2%N in H2.
      cbn [JS.digits_from]. rewrite N.div_small by lia. reflexivity.
    + cbn [JS.digits_from]. destruct (n / 10 =? 0)%N; [reflexivity|].
      apply IH; apply div10_lt_pow2; assumption.
Qed.

Lemma lt_pow2_log2 (n : N) : (n < 2 ^ N.of_nat (S (N.to_nat (N.log2 n))))%N.
Proof.
  rewrite Nnat.Nat2N.inj_succ, Nnat.N2Nat.id.
  destruct (N.eq_dec n 0) as [->|Hn]; [reflexivity|].
  apply N.log2_spec. lia.
Qed.

Lemma decimal_digits_small (n : N) :
  (n < 10)%N -> JS.decimal_digits n = String (JS.digit_char n) "".
Proof.
  intros H. unfold JS.decimal_digits. cbn [JS.digits_from].
  rewrite N.div_small by assumption. rewrite N.mod_small by assumption.
  reflexivity.
Qed.

Lemma decimal_digits_step (n : N) :
  (10 <= n)%N ->
  JS.decimal_digits n = JS.decimal_digits (n / 10) ++ String (JS.digit_char (n mod 10)) "".
Proof.
  intros H. unfold JS.decimal_digits at 1. cbn [JS.digits_from].
  assert (Hq : (n / 10 <> 0)%N).
  { intros E. apply N.div_small_iff in E; lia. }
  apply N.eqb_neq in Hq. rewrite Hq.
  rewrite digits_from_acc. f_equal.
  unfold JS.decimal_digits.
  assert (Hl : (1 <= N.log2 n)%N).
  { change 1%N with (N.log2 2). apply N.log2_le_mono. lia. }
  destruct (N.to_nat (N.log2 n)) as [|f] eqn:Ef; [lia|].
  apply digits_from_enough.
  - apply div10_lt_pow2. rewrite <- Ef. apply lt_pow2_log2.
  - apply lt_pow2_log2.
Qed.

Lemma decimal_digits_nonempty (n : N) : (1 <= String.length (JS.decimal_digits n))%nat.
Proof.
  destruct (N.lt_ge_cases n 10) as [H|H].
  - rewrite decimal_digits_small by assumption. simpl. lia.
  - rewrite decimal_digits_step by assumption. rewrite length_append. simpl. lia.
Qed.

Lemma length_place_digits (j : nat) :
  forall n, String.length (FilenameSpec.place_digits j n) = j.
Proof.
  induction j as [|j IH]; intros n; simpl; [reflexivity|].
  rewrite length_append, IH. simpl. lia.
Qed.

Lemma place_digits_zero (j : nat) :
  FilenameSpec.place_digits j 0 = JS.repeat_string "0" j.
Proof.
  induction j as [|j IH]; [reflexivity|].
  cbn [FilenameSpec.place_digits]. change (0 / 10)%N with 0%N. rewrite IH.
  clear IH. induction j as [|j IH]; [reflexivity|].
  cbn [JS.repeat_string]. rewrite append_assoc. rewrite IH. reflexivity.
Qed.

(** A number of more than [j] digits: its rendering ends with its [j]
    lowest digits. *)
Lemma decimal_digits_split (j : nat) :
  forall n, (10 ^ N.of_nat j <= n)%N ->
    JS.decimal_digits n
    = JS.decimal_digits (n / 10 ^ N.of_nat j) ++ FilenameSpec.place_digits j n.
Proof.
  induction j as [|j IH]; intros n H.
  - simpl. rewrite N.div_1_r, append_nil_r. reflexivity.
  - rewrite Nnat.Nat2N.inj_succ, N.pow_succ_r' in *.
    assert (H10 : (10 <= n)%N).
    { pose proof (N.pow_nonzero 10 (N.of_nat j)). lia. }
    rewrite decimal_digits_step by assumption.
    assert (Hq : (10 ^ N.of_nat j <= n / 10)%N).
    { apply N.div_le_lower_bound; lia. }
    rewrite (IH _ Hq). cbn [FilenameSpec.place_digits].
    rewrite N.Div0.div_div. rewrite append_assoc. reflexivity.
Qed.

(** A number of at most [j] digits, padded with zeros to [j] places. *)
Lemma decimal_digits_pad (j : nat) :
  forall n, (n < 10 ^ N.of_nat (S j))%N ->
    (String.length (JS.decimal_digits n) <= S j)%nat /\
    JS.repeat_string "0" (S j - String.length (JS.decimal_digits n))
      ++ JS.decimal_digits n
    = FilenameSpec.place_digits (S j) n.
Proof.
  induction j as [|j IH]; intros n H.
  - change (10 ^ N.of_nat 1)%N with 10%N in H.
    rewrite decimal_digits_small by assumption. simpl.
    rewrite N.mod_small by assumption. split; [lia|reflexivity].
  - destruct (N.lt_ge_cases n 10) as [Hs|Hb].
    + rewrite decimal_digits_small by assumption.
      cbn [FilenameSpec.place_digits String.length].
      rewrite (N.div_small n 10) by assumption.
      rewrite (N.mod_small n 10) by assumption.
      change (0 / 10)%N with 0%N. change (0 mod 10)%N with 0%N.
      split; [lia|].
      replace (S (S j) - 1)%nat with (S j) by lia.
      pose proof (place_digits_zero (S j)) as Hz.
      cbn [FilenameSpec.place_digits] in Hz. change (0 / 10)%N with 0%N in Hz.
      change (0 mod 10)%N with 0%N in Hz. rewrite Hz. reflexivity.
    + rewrite decimal_digits_step by assumption.
      assert (Hq : (n / 10 < 10 ^ N.of_nat (S j))%N).
      { apply N.Div0.div_lt_upper_bound.
        rewrite (Nnat.Nat2N.inj_succ (S j)), N.pow_succ_r' in H. exact H. }
      destruct (IH _ Hq) as [Hlen Heq].
      rewrite length_append. cbn [String.length].
      split; [lia|].
      replace (S (S j) - (String.length (JS.decimal_digits (n / 10)) + 1))%nat
        with (S j - String.length (JS.decimal_digits (n / 10)))%nat by lia.
      rewrite <- append_assoc. rewrite Heq. reflexivity.
Qed.

(** ** [nearest_integer] is the integer ECMAScript asks for *)

Lemma nearest_integer_closest (x : Q) (f : nat) (m : Z) :
  let y := (x * inject_Z (10 ^ Z.of_nat f))%Q in
  let n := JS.nearest_integer x f in
  (Qabs (inject_Z n - y) <= Qabs (inject_Z m - y))%Q /\
  (Qabs (inject_Z n - y) == Qabs (inject_Z m - y) -> (m <= n)%Z)%Q.
Proof.
  intros y n.
  assert (Hlo : (inject_Z n <= y + (1 # 2))%Q) by apply Qfloor_le.
  assert (Hhi : (y + (1 # 2) < inject_Z (n + 1))%Q) by apply Qlt_floor.
  rewrite inject_Z_plus in Hhi. change (inject_Z 1) with 1%Q in Hhi.
  clearbody n y.
  assert (Hn : (Qabs (inject_Z n - y) <= 1 # 2)%Q).
  { apply Qabs_Qle_condition. split; lra. }
  destruct (Z_lt_le_dec n m) as [Hm|Hm].
  - assert (Hm' : (inject_Z (n + 1) <= inject_Z m)%Q).
    { rewrite <- Zle_Qle. lia. }
    rewrite inject_Z_plus in Hm'. change (inject_Z 1) with 1%Q in Hm'.
    assert (Hp : (0 <= inject_Z m - y)%Q) by lra.
    rewrite (Qabs_pos _ Hp). split.
    + lra.
    + intros E. rewrite E in Hn. lra.
  - split; [|intros _; exact Hm].
    destruct (Z.eq_dec m n) as [->|Hne]; [apply Qle_refl|].
    assert (Hm' : (inject_Z m + 1 <= inject_Z n)%Q).
    { change 1%Q with (inject_Z 1). rewrite <- inject_Z_plus, <- Zle_Qle. lia. }
    assert (Hp : (inject_Z m - y <= 0)%Q) by lra.
    rewrite (Qabs_neg _ Hp).
    lra.
Qed.

(** ** [toFixed], [padStart] and [replace] do what the specification says *)

Lemma Qabs_by_cases (x : Q) : (if JS.Qlt_bool x 0 then Qopp x else x) = Qabs x.
Proof.
  destruct x as [a b]. unfold JS.Qlt_bool, Qle_bool, Qopp, Qabs. simpl.
  rewrite Z.mul_1_r.
  destruct (Z.leb_spec 0 a) as [H|H]; simpl.
  - rewrite Z.abs_eq by assumption. reflexivity.
  - rewrite Z.abs_neq by lia. reflexivity.
Qed.

Lemma repeat_zero_succ (n : nat) :
  JS.repeat_string "0" (S n) = String "0" (JS.repeat_string "0" n).
Proof. reflexivity. Qed.

Lemma toFixed_fraction (NumberToString : Q -> string) (x : Q) (f : nat) :
  (1 <= f)%nat ->
  (Qabs x < inject_Z (10 ^ 21))%Q ->
  let n := Z.to_N (JS.nearest_integer (Qabs x) f) in
  JS.toFixed NumberToString x f
  = (if JS.Qlt_bool x 0 then "-" else "")
      ++ JS.decimal_digits (n / 10 ^ N.of_nat f) ++ "."
      ++ FilenameSpec.place_digits f n.
Proof.
  intros Hf Hx n. unfold JS.toFixed.
  rewrite Qabs_by_cases.
  assert (Hbig : Qle_bool (inject_Z (10 ^ 21)) (Qabs x) = false).
  { destruct (Qle_bool (inject_Z (10 ^ 21)) (Qabs x)) eqn:E; [|reflexivity].
    apply Qle_bool_iff in E. exfalso. exact (Qlt_not_le _ _ Hx E). }
  rewrite Hbig. fold n. f_equal.
  assert (Hm : (if (n =? 0)%N then "0" else JS.decimal_digits n) = JS.decimal_digits n).
  { destruct (N.eqb_spec n 0) as [->|_]; reflexivity. }
  rewrite Hm. clear Hm.
  destruct f as [|j]; [lia|]. cbn [Nat.eqb].
  clearbody n. clear Hf Hx Hbig.
  destruct (N.lt_ge_cases n (10 ^ N.of_nat (S j))) as [Hs|Hb].
  - destruct (decimal_digits_pad j n Hs) as [Hlen Hpad].
    apply Nat.leb_le in Hlen. rewrite Hlen. apply Nat.leb_le in Hlen.
    rewrite (N.div_small n) by assumption.
    replace (S j + 1 - String.length (JS.decimal_digits n))%nat
      with (S (S j - String.length (JS.decimal_digits n))) by lia.
    rewrite repeat_zero_succ. cbn [append].
    rewrite Hpad. cbn [String.length]. rewrite length_place_digits.
    replace (S (S j) - S j)%nat with 1%nat by lia.
    reflexivity.
  - rewrite (decimal_digits_split (S j) n Hb).
    set (A := JS.decimal_digits (n / 10 ^ N.of_nat (S j))).
    set (P := FilenameSpec.place_digits (S j) n).
    assert (HP : String.length P = S j) by apply length_place_digits.
    assert (HA : (1 <= String.length A)%nat) by apply decimal_digits_nonempty.
    assert (Hk : (String.length (A ++ P) <=? S j)%nat = false).
    { apply Nat.leb_gt. rewrite length_append. lia. }
    rewrite Hk.
    replace (String.length (A ++ P) - S j)%nat with (String.length A)
      by (rewrite length_append; lia).
    rewrite take_app_exact, drop_app_exact. reflexivity.
Qed.

Lemma padStart_seq3 (n : N) :
  JS.padStart (JS.decimal_digits n) 3 "0" = FilenameSpec.seq3 n.
Proof.
  unfold JS.padStart, FilenameSpec.seq3. cbn [String.length Nat.eqb].
  destruct (N.ltb_spec n 1000) as [Hs|Hb].
  - destruct (decimal_digits_pad 2 n Hs) as [Hlen Hpad].
    destruct (Nat.leb_spec 3 (String.length (JS.decimal_digits n))) as [H3|H3].
    + replace (3 - String.length (JS.decimal_digits n))%nat with 0%nat in Hpad by lia.
      exact Hpad.
    + rewrite <- Hpad. f_equal.
      rewrite <- (length_repeat_char "0" (3 - String.length (JS.decimal_digits n))) at 1.
      apply take_all.
  - pose proof (decimal_digits_split 3 n Hb) as Hsplit.
    pose proof (decimal_digits_nonempty (n / 10 ^ N.of_nat 3)) as Hne.
    assert (Hlen : (3 <=? String.length (JS.decimal_digits n))%nat = true).
    { apply Nat.leb_le. rewrite Hsplit, length_append, length_place_digits. lia. }
    rewrite Hlen. reflexivity.
Qed.

Lemma unsafe_chars_allowed (c : N) :
  JS.class_matches Filename.unsafe_chars c = negb (FilenameSpec.allowed c).
Proof.
  unfold JS.class_matches, FilenameSpec.allowed. cbn -[N.eqb N.leb].
  rewrite (N.eqb_sym 95 c), (N.eqb_sym 45 c).
  destruct (97 <=? c)%N, (c <=? 122)%N, (65 <=? c)%N, (c <=? 90)%N,
    (48 <=? c)%N, (c <=? 57)%N, (c =? 95)%N, (c =? 45)%N; reflexivity.
Qed.

Lemma replace_safeSite (s : jsstring) :
  JS.replace_global Filename.unsafe_chars "_" s = FilenameSpec.safeSite s.
Proof.
  induction s as [|c s IH]; [reflexivity|].
  cbn [JS.replace_global FilenameSpec.safeSite].
  rewrite unsafe_chars_allowed, IH.
  destruct (FilenameSpec.allowed c); reflexivity.
Qed.

Lemma length_safeSite (s : jsstring) :
  jlength (FilenameSpec.safeSite s) = jlength s.
Proof. induction s as [|c s IH]; simpl; congruence. Qed.

Lemma toFixed_fixed6 (NumberToString : Q -> string) (x : Q) :
  (Qabs x < inject_Z (10 ^ 21))%Q ->
  JS.toFixed NumberToString x 6 = FilenameSpec.fixed6 x.
Proof.
  intros H. rewrite toFixed_fraction by (try lia; assumption). reflexivity.
Qed.

(** * FilenameGenerator *)

(** C7.  For a site name and a date (any sequences of code units), a
    sequence number and a latitude and longitude below 10^21 in magnitude
    (every sequence counter and every geographic coordinate is; from
    10^21 on JavaScript renders a number in exponent form),
    [formatFilename] is the sanitised site name, the date, the sequence
    number padded with zeros to three digits, and the latitude and the
    longitude with exactly six fractional digits, joined by underscores
    and followed by ".jpg"; sanitising replaces each code unit outside
    [A-Za-z0-9_-] by one underscore, so the length is kept; the example
    of the specification holds; equal arguments give equal names. *)
Theorem formatFilename_format
    (NumberToString : Q -> string) (site day : jsstring) (n : N) (la lo : Q) :
  (n < 10 ^ 21)%N ->
  (Qabs la < inject_Z (10 ^ 21))%Q ->
  (Qabs lo < inject_Z (10 ^ 21))%Q ->
  Filename.formatFilename NumberToString
    {| Filename.arg_siteName := site; Filename.arg_date := day;
       Filename.arg_seq := n; Filename.arg_lat := la; Filename.arg_lng := lo |}
  = (FilenameSpec.safeSite site ++ "_" ++ day ++ "_"
       ++ of_ascii (FilenameSpec.seq3 n) ++ "_"
       ++ of_ascii (FilenameSpec.fixed6 la) ++ "_"
       ++ of_ascii (FilenameSpec.fixed6 lo) ++ ".jpg")%js
  /\ jlength (FilenameSpec.safeSite site) = jlength site
  /\ Filename.formatFilename NumberToString
       {| Filename.arg_siteName := "Trench Alpha!"; Filename.arg_date := "2024-05-01";
          Filename.arg_seq := 1; Filename.arg_lat := 41.015137;
          Filename.arg_lng := 28.979530 |}
     = "Trench_Alpha__2024-05-01_001_41.015137_28.979530.jpg"%js
  /\ (forall a b : Filename.filename_args,
        a = b ->
        Filename.formatFilename NumberToString a
        = Filename.formatFilename NumberToString b).
Proof.
  intros Hn Hla Hlo. split; [|split; [|split]].
  - unfold Filename.formatFilename. cbn [Filename.arg_siteName Filename.arg_date
      Filename.arg_seq Filename.arg_lat Filename.arg_lng].
    unfold JS.ToString. apply N.ltb_lt in Hn. rewrite Hn.
    rewrite replace_safeSite, padStart_seq3.
    rewrite (toFixed_fixed6 _ la Hla), (toFixed_fixed6 _ lo Hlo). reflexivity.
  - apply length_safeSite.
  - vm_compute. reflexivity.
  - intros a b ->. reflexivity.
Qed.

Lemma formatFilename_format_witness :
  Filename.formatFilename (fun _ => EmptyString)
    {| Filename.arg_siteName := "Kazı #7"; Filename.arg_date := "2024-05-01";
       Filename.arg_seq := 1234; Filename.arg_lat := - (1 # 3);
       Filename.arg_lng := 181 # 2 |}
  = "Kaz___7_2024-05-01_1234_-0.333333_90.500000.jpg"%js.
Proof.
  rewrite (proj1 (formatFilename_format (fun _ => EmptyString) "Kazı #7" "2024-05-01"
                    1234 (- (1 # 3)) (181 # 2) eq_refl eq_refl eq_refl)).
  vm_compute. reflexivity.
Defined.

(** * GeoTracker: the haversine distance *)

Section HaversineFacts.

Local Open Scope R_scope.



Lemma toRad_diag (x : Q) : Haversine.toRad (x - x) = 0.
Proof.
  unfold Haversine.toRad. rewrite Q2R_minus. field.
Qed.


End HaversineFacts.

(** * CaptureSessionController *)

Section ControllerFacts.

Import Controller ControllerSpec.

Local Open Scope js_scope.
Local Open Scope list_scope.

Variable NumberToString : Q -> string.
Variable userAgent : jsstring.
Variable today : jsstring.

Local Abbreviation step := (Controller.step NumberToString userAgent).
Local Abbreviation run := (Controller.run NumberToString userAgent).
Local Abbreviation init := (Controller.initialState today).

(** ** The pool of pending calls *)

Lemma lookup_remove_same (id : nat) (ts : list (nat * cont)) :
  lookup id (remove id ts) = None.
Proof.
  induction ts as [|[i k] ts IH]; simpl; [reflexivity|].
  destruct (Nat.eqb_spec i id) as [E|E]; [exact IH|].
  simpl. apply Nat.eqb_neq in E. rewrite E. exact IH.
Qed.

Lemma lookup_remove_other (id id' : nat) (ts : list (nat * cont)) :
  id <> id' -> lookup id (remove id' ts) = lookup id ts.
Proof.
  intros Hne. induction ts as [|[i k] ts IH]; simpl; [reflexivity|].
  destruct (Nat.eqb_spec i id') as [E|E].
  - subst i. destruct (Nat.eqb_spec id' id) as [E'|_]; [congruence|exact IH].
  - simpl. rewrite IH. reflexivity.
Qed.

Lemma lookup_park_same (id : nat) (k : option cont) (ts : list (nat * cont)) :
  lookup id (park id k ts) = k.
Proof.
  destruct k as [k|]; simpl.
  - rewrite Nat.eqb_refl. reflexivity.
  - apply lookup_remove_same.
Qed.

Lemma lookup_park_other (id id' : nat) (k : option cont) (ts : list (nat * cont)) :
  id <> id' -> lookup id (park id' k ts) = lookup id ts.
Proof.
  intros Hne. destruct k as [k|]; simpl.
  - destruct (Nat.eqb_spec id' id) as [E|_]; [congruence|].
    apply lookup_remove_other; assumption.
  - apply lookup_remove_other; assumption.
Qed.

(** ** Starting a session *)

Lemma state_eta (s : State) :
  mkState (render s) (videoRef s) (tasks s) (next_id s) = s.
Proof. destruct s; reflexivity. Qed.

(** C6.  While the start button exists ([capturing] is false): with
    [storageOk] false, [onStart] only raises the storage alert, whatever
    the battery state, and leaves the controller as it was, with no call
    pending (no confirmation asked, no device acquisition, no request);
    with [storageOk] true, [batteryLow] true and the confirmation declined
    it only asks the confirmation and likewise stops there. *)
Theorem onStart_preconditions (s : State) (confirmAnswer : bool) :
  capturing (render s) = false ->
  (storageOk (render s) = false ->
   step s (ClickStart confirmAnswer) = (s, [Alert NotEnoughStorage]))
  /\ (storageOk (render s) = true -> batteryLow (render s) = true ->
      step s (ClickStart false) = (s, [Confirm])).
Proof.
  intros Hc. split.
  - intros Hs. unfold Controller.step, onStart. rewrite Hc, Hs.
    unfold spawn. simpl. rewrite state_eta. reflexivity.
  - intros Hs Hb. unfold Controller.step, onStart. rewrite Hc, Hs, Hb.
    unfold spawn. simpl. rewrite state_eta. reflexivity.
Qed.

(** ** Which state variables a handler writes *)

Ltac break_match :=
  match goal with
  | |- context [match ?x with _ => _ end] => destruct x eqn:?
  | H : context [match ?x with _ => _ end] |- _ => destruct x eqn:?
  end.

Ltac sensors_kept_tac :=
  repeat break_match; intros r0; cbn; repeat split; reflexivity.

Lemma sensors_kept_withSessionId c v r sid :
  sensors_kept (updates (withSessionId c v r sid)).
Proof. unfold withSessionId, captureAndUpload, finish, suspend. sensors_kept_tac. Qed.

Lemma sensors_kept_createSession c v r :
  sensors_kept (updates (createSession userAgent c v r)).
Proof.
  unfold createSession, withSessionId, captureAndUpload, also, finish, suspend.
  sensors_kept_tac.
Qed.

Lemma sensors_kept_onStart v r a : sensors_kept (updates (onStart v r a)).
Proof. unfold onStart, startCamera, also, finish, suspend. sensors_kept_tac. Qed.

Lemma sensors_kept_onStop v : sensors_kept (updates (onStop v)).
Proof. unfold onStop. intros r0; cbn; repeat split; reflexivity. Qed.

Lemma sensors_kept_also f o x :
  sensors_kept f -> sensors_kept (updates x) -> sensors_kept (updates (also f o x)).
Proof.
  intros Hf Hx r0. cbn.
  destruct (Hx (f r0)) as (?&?&?&?&?&?&?&?&?&?).
  destruct (Hf r0) as (?&?&?&?&?&?&?&?&?&?).
  repeat split; congruence.
Qed.

Lemma sensors_kept_id : sensors_kept (fun x => x).
Proof. intros r0. repeat split; reflexivity. Qed.

Lemma sensors_kept_setZoom z : sensors_kept (setZoom z).
Proof. intros r0. repeat split; reflexivity. Qed.

Lemma sensors_kept_resume v k o x :
  resume NumberToString userAgent v k o = Some x -> sensors_kept (updates x).
Proof.
  intros H. unfold resume, cameraError, upload in H.
  repeat break_match; try discriminate;
    injection H as <-;
    try apply sensors_kept_createSession;
    try apply sensors_kept_withSessionId;
    try (intros r0; cbn; repeat split; reflexivity).
  all: apply sensors_kept_also;
    [first [apply sensors_kept_id | apply sensors_kept_setZoom]
    |apply sensors_kept_createSession].
Qed.

(** A click or the resumption of a pending call leaves the sensor
    readings and what is derived from them alone. *)
Lemma step_keeps_sensors (s : State) (e : event) :
  match e with
  | ClickStart _ | ClickCapture | ClickStop | Settle _ _ =>
      exists f, sensors_kept f /\ render (fst (step s e)) = f (render s)
  | _ => True
  end.
Proof.
  destruct e; try exact I; unfold Controller.step, spawn, continue.
  - destruct (capturing (render s)).
    + exists (fun x => x). split; [apply sensors_kept_id|reflexivity].
    + exists (updates (onStart (videoRef s) (render s) confirmAnswer)).
      split; [apply sensors_kept_onStart|]. break_match; reflexivity.
  - destruct (capturing (render s) && negb (angleWarning (render s))).
    + exists (updates (createSession userAgent ByCapture (videoRef s) (render s))).
      split; [apply sensors_kept_createSession|]. break_match; reflexivity.
    + exists (fun x => x). split; [apply sensors_kept_id|reflexivity].
  - destruct (capturing (render s)).
    + exists (updates (onStop (videoRef s))).
      split; [apply sensors_kept_onStop|]. reflexivity.
    + exists (fun x => x). split; [apply sensors_kept_id|reflexivity].
  - destruct (lookup id (tasks s)) as [k|].
    + destruct (resume NumberToString userAgent (videoRef s) k o) as [x|] eqn:E.
      * exists (updates x). split; [exact (sensors_kept_resume _ _ _ _ E)|reflexivity].
      * exists (fun x => x). split; [apply sensors_kept_id|reflexivity].
    + exists (fun x => x). split; [apply sensors_kept_id|reflexivity].
Qed.

(** ** The tilt gate *)

Lemma angle_consistent_ext (r r' : Render) :
  angleBaseline r' = angleBaseline r ->
  angleWarning r' = angleWarning r ->
  pitchRef r' = pitchRef r ->
  angle_consistent r -> angle_consistent r'.
Proof.
  unfold angle_consistent, deviation. intros -> -> ->. exact (fun H => H).
Qed.

Lemma no_deviation_from_itself (p : float) :
  PrimFloat.ltb 5%float (PrimFloat.abs (PrimFloat.sub p p)) = false.
Proof.
  rewrite ltb_spec, abs_spec, sub_spec.
  destruct (Prim2SF p) as [sg|sg| |sg m e].
  - destruct sg; vm_compute; reflexivity.
  - destruct sg; vm_compute; reflexivity.
  - vm_compute; reflexivity.
  - unfold SF64sub, SFsub. rewrite Z.sub_diag. reflexivity.
Qed.

Lemma handleOrient_consistent (alpha beta : option float) (r : Render) :
  angle_consistent r -> angle_consistent (handleOrient alpha beta r).
Proof.
  unfold angle_consistent, exceeds_tolerance, deviation, handleOrient.
  destruct (angleBaseline r) as [b|] eqn:Eb; cbn.
  - intros _. rewrite Eb. cbn. tauto.
  - intros Hw. destruct (started r); cbn.
    + destruct beta as [p|]; cbn.
      * rewrite Hw. split; [discriminate|].
        intros H. rewrite (no_deviation_from_itself p) in H. discriminate H.
      * exact Hw.
    + rewrite Eb. exact Hw.
Qed.

Lemma step_angle_consistent (s : State) (e : event) :
  angle_consistent (render s) -> angle_consistent (render (fst (step s e))).
Proof.
  intros H. pose proof (step_keeps_sensors s e) as Hk.
  destruct e;
    try (destruct Hk as (f & Hf & ->);
         destruct (Hf (render s)) as (_&_&_&_&_&?&_&_&?&?);
         eapply angle_consistent_ext; eassumption).
  - exact H.
  - exact H.
  - exact H.
  - cbn. unfold onPosition. destruct (startCoords (render s)); exact H.
  - exact H.
  - cbn. unfold onStorageEstimate. repeat break_match; exact H.
  - cbn. apply handleOrient_consistent. exact H.
Qed.

Lemma run_cons (s : State) (e : event) (es : list event) :
  fst (run s (e :: es)) = fst (run (fst (step s e)) es).
Proof.
  simpl. destruct (Controller.step NumberToString userAgent s e) as [s1 o1].
  simpl. destruct (Controller.run NumberToString userAgent s1 es) as [s2 o2].
  reflexivity.
Qed.

Lemma run_app (es es' : list event) (s : State) :
  fst (run s (es ++ es')) = fst (run (fst (run s es)) es').
Proof.
  revert s. induction es as [|e es IH]; intros s; [reflexivity|].
  rewrite <- app_comm_cons, !run_cons. apply IH.
Qed.

Lemma run_angle_consistent (es : list event) (s : State) :
  angle_consistent (render s) -> angle_consistent (render (fst (run s es))).
Proof.
  revert s. induction es as [|e es IH]; intros s H; [exact H|].
  rewrite run_cons. apply IH. apply step_angle_consistent. exact H.
Qed.

(** C4.  In every state the controller reaches, so in particular after
    each orientation event is processed, [angleWarning] is true exactly
    when the pitch last read deviates from the baseline by more than 5,
    and it is false as long as no baseline is set.  The deviation is the
    one the code computes, [Math.abs(pitch - angleBaseline)] in double
    precision, and the comparison is the one of doubles. *)
Theorem angleWarning_iff_deviation (es : list event) :
  let r := render (fst (run init es)) in
  match angleBaseline r with
  | Some baseline =>
      angleWarning r = true
      <-> PrimFloat.ltb 5%float
            (PrimFloat.abs (PrimFloat.sub (ToNumber (pitchRef r)) baseline)) = true
  | None => angleWarning r = false
  end.
Proof.
  apply (run_angle_consistent es init). reflexivity.
Qed.

(** ** The sequence counter *)

Ltac unfold_handlers :=
  unfold Controller.step, spawn, continue, with_render, resume, cameraError,
    upload, onStop, onStart, startCamera, createSession, withSessionId,
    captureAndUpload, also, finish, suspend, onPosition, onBatteryLevel,
    onStorageEstimate, handleOrient in *.

Lemma step_seq (s : State) (e : event) :
  seq (render (fst (step s e)))
  = (seq (render s) + if upload_resolves s e then 1 else 0)%N.
Proof.
  unfold upload_resolves.
  destruct e; unfold_handlers;
    repeat break_match; subst; try discriminate;
    repeat match goal with
           | H : Some _ = Some _ |- _ => injection H as <-
           end;
    cbn; lia.
Qed.

Lemma run_seq_mono (es : list event) (s : State) :
  (seq (render s) <= seq (render (fst (run s es))))%N.
Proof.
  revert s. induction es as [|e es IH]; intros s; [apply N.le_refl|].
  rewrite run_cons. specialize (IH (fst (step s e))).
  rewrite step_seq in IH. destruct (upload_resolves s e); lia.
Qed.

(** C2, as the code has it.  The counter starts at 0 and never decreases.
    One event changes it by exactly 1 when that event is the answer (of
    any status) to the upload request of a pending capture, and by 0
    otherwise: the capture trigger itself does not advance it, and
    neither does an upload request that is rejected. *)
Theorem seq_advances_when_upload_resolves (s : State) (e : event) (es : list event) :
  seq (render init) = 0%N
  /\ seq (render (fst (step s e)))
     = (seq (render s) + if upload_resolves s e then 1 else 0)%N
  /\ (seq (render s) <= seq (render (fst (run s es))))%N.
Proof.
  split; [reflexivity|]. split; [apply step_seq|apply run_seq_mono].
Qed.

(** ** The angle baseline *)

Lemma step_angleBaseline (s : State) (e : event) :
  angleBaseline (render (fst (step s e)))
  = match e with
    | DeviceOrientation _ beta =>
        if is_null (angleBaseline (render s)) && started (render s)
        then beta else angleBaseline (render s)
    | _ => angleBaseline (render s)
    end.
Proof.
  pose proof (step_keeps_sensors s e) as Hk.
  destruct e;
    try (destruct Hk as (f & Hf & ->);
         destruct (Hf (render s)) as (_&_&_&_&_&_&_&_&?&_); assumption);
    try reflexivity.
  - cbn. unfold onPosition. destruct (startCoords (render s)); reflexivity.
  - cbn. unfold onStorageEstimate. repeat break_match; reflexivity.
  - cbn. unfold handleOrient.
    destruct (angleBaseline (render s)) eqn:Eb; cbn; [exact Eb|].
    destruct (started (render s)); cbn; [reflexivity|exact Eb].
Qed.

Lemma run_angleBaseline_kept (es : list event) (s : State) (b : float) :
  angleBaseline (render s) = Some b ->
  angleBaseline (render (fst (run s es))) = Some b.
Proof.
  revert s. induction es as [|e es IH]; intros s H; [exact H|].
  rewrite run_cons. apply IH. rewrite step_angleBaseline.
  destruct e; try exact H. rewrite H. reflexivity.
Qed.

(** C5, as the code has it.  The baseline changes in one way only: an
    orientation sample with a pitch, processed while a session is started
    and no baseline is set, sets it to that pitch.  Such a sample always
    does so, whatever the pitch (0 included), a sample without a pitch
    leaves the baseline unset for the next one, and the value taken stays
    through every later event.  No event sets it while no session is
    started, and once set it keeps its value for good, across stops and
    later sessions: it is set at most once in the life of the
    controller. *)
Theorem angleBaseline_set_once (s : State) (e : event) :
  (angleBaseline (render (fst (step s e))) <> angleBaseline (render s) ->
   exists alpha p,
     e = DeviceOrientation alpha (Some p)
     /\ started (render s) = true
     /\ angleBaseline (render s) = None
     /\ angleBaseline (render (fst (step s e))) = Some p)
  /\ (forall alpha beta,
        started (render s) = true ->
        angleBaseline (render s) = None ->
        angleBaseline (render (fst (step s (DeviceOrientation alpha beta)))) = beta)
  /\ (forall alpha p es,
        started (render s) = true ->
        angleBaseline (render s) = None ->
        angleBaseline
          (render (fst (run s (DeviceOrientation alpha (Some p) :: es)))) = Some p)
  /\ (started (render s) = false ->
      angleBaseline (render (fst (step s e))) = angleBaseline (render s))
  /\ (forall b es,
        angleBaseline (render s) = Some b ->
        angleBaseline (render (fst (run s es))) = Some b).
Proof.
  split; [|split; [|split; [|split]]].
  - rewrite step_angleBaseline. intros H.
    destruct e; try (exfalso; apply H; reflexivity).
    destruct (angleBaseline (render s)) as [b|] eqn:Eb; cbn in H |- *;
      [exfalso; apply H; reflexivity|].
    destruct (started (render s)); cbn in H |- *;
      [|exfalso; apply H; reflexivity].
    destruct beta as [p|]; [|exfalso; apply H; reflexivity].
    exists alpha, p. repeat split; reflexivity.
  - intros alpha beta Hs Hb. rewrite step_angleBaseline, Hs, Hb. reflexivity.
  - intros alpha p es Hs Hb. rewrite run_cons. apply run_angleBaseline_kept.
    rewrite step_angleBaseline, Hs, Hb. reflexivity.
  - intros Hs. rewrite step_angleBaseline, Hs, andb_false_r.
    destruct e; reflexivity.
  - intros b es H. apply run_angleBaseline_kept. exact H.
Qed.

(** ** The capture gate *)

Lemma capture_refused (s : State) :
  angleWarning (render s) = true -> step s ClickCapture = (s, []).
Proof.
  intros H. unfold Controller.step. rewrite H, andb_false_r. reflexivity.
Qed.

(** C3, as the code has it.  In every state the controller reaches, the
    capture trigger is refused (the state stays as it is and nothing is
    requested or uploaded) whenever [angleWarning] is true, that is
    whenever a baseline is set and the deviation the code computes from
    the pitch last read, [Math.abs(pitch - angleBaseline)] in double
    precision, is more than 5.  While no baseline is set [angleWarning]
    is false and the trigger of an active session is accepted. *)
Theorem capture_gate (es : list event) :
  let s := fst (run init es) in
  (angleWarning (render s) = true -> step s ClickCapture = (s, []))
  /\ (forall baseline,
        angleBaseline (render s) = Some baseline ->
        exceeds_tolerance (deviation (render s) baseline) ->
        step s ClickCapture = (s, []))
  /\ (angleBaseline (render s) = None ->
      capturing (render s) = true ->
      step s ClickCapture
      = spawn s (createSession userAgent ByCapture (videoRef s) (render s))
      /\ snd (step s ClickCapture) <> []).
Proof.
  intros s.
  assert (Hinv : angle_consistent (render s)).
  { apply (run_angle_consistent es init). reflexivity. }
  split; [apply capture_refused|]. split.
  - intros b Hb Hd. apply capture_refused.
    unfold angle_consistent in Hinv. rewrite Hb in Hinv. apply Hinv. exact Hd.
  - intros Hb Hc. unfold angle_consistent in Hinv. rewrite Hb in Hinv.
    unfold Controller.step. rewrite Hc, Hinv. cbn [andb negb].
    split; [reflexivity|].
    unfold spawn, createSession, withSessionId, captureAndUpload, also, finish, suspend.
    repeat break_match; cbn; discriminate.
Qed.

(** ** Pending calls along a run *)

Lemma step_next_id (s : State) (e : event) :
  (next_id s <= next_id (fst (step s e)))%nat.
Proof.
  destruct e; unfold Controller.step, spawn, continue, with_render;
    repeat break_match; cbn; lia.
Qed.

(** An event that is not addressed to the call [id] leaves it as it is. *)
Lemma step_other_call (s : State) (e : event) (id : nat) :
  (id < next_id s)%nat ->
  (forall o, e <> Settle id o) ->
  lookup id (tasks (fst (step s e))) = lookup id (tasks s).
Proof.
  intros Hid Hne.
  assert (Hcons : forall k, lookup id ((next_id s, k) :: tasks s) = lookup id (tasks s)).
  { intros k. simpl. destruct (Nat.eqb_spec (next_id s) id); [lia|reflexivity]. }
  destruct e; unfold Controller.step, spawn, continue, with_render;
    try reflexivity.
  - repeat break_match; cbn [fst tasks]; try reflexivity; apply Hcons.
  - repeat break_match; cbn [fst tasks]; try reflexivity; apply Hcons.
  - repeat break_match; cbn [fst tasks]; try reflexivity; apply Hcons.
  - assert (id <> id0) by (intros ->; apply (Hne o); reflexivity).
    repeat break_match; cbn [fst tasks]; try reflexivity.
    apply lookup_park_other. assumption.
Qed.

Lemma spawn_fresh_ids (s : State) (x : reaction) :
  fresh_ids s -> fresh_ids (fst (spawn s x)).
Proof.
  intros Hf id k. unfold spawn. destruct (awaits x) as [k0|]; cbn.
  - destruct (Nat.eqb_spec (next_id s) id) as [<-|_]; [lia|].
    intros H. apply Hf in H. lia.
  - apply Hf.
Qed.

Lemma continue_fresh_ids (s : State) (id0 : nat) (k0 : cont) (x : reaction) :
  fresh_ids s -> lookup id0 (tasks s) = Some k0 ->
  fresh_ids (fst (continue s id0 x)).
Proof.
  intros Hf H0 id k. unfold continue. cbn.
  destruct (Nat.eq_dec id id0) as [->|Hne].
  - intros _. exact (Hf _ _ H0).
  - rewrite lookup_park_other by assumption. apply Hf.
Qed.

Lemma step_fresh_ids (s : State) (e : event) :
  fresh_ids s -> fresh_ids (fst (step s e)).
Proof.
  intros Hf.
  destruct e; unfold Controller.step; try exact Hf.
  - destruct (capturing (render s)); [exact Hf|apply spawn_fresh_ids; exact Hf].
  - destruct (capturing (render s) && negb (angleWarning (render s)));
      [apply spawn_fresh_ids; exact Hf|exact Hf].
  - destruct (capturing (render s)); [apply spawn_fresh_ids; exact Hf|exact Hf].
  - destruct (lookup id (tasks s)) as [k|] eqn:Ek; [|exact Hf].
    destruct (resume NumberToString userAgent (videoRef s) k o); [|exact Hf].
    eapply continue_fresh_ids; eassumption.
Qed.

Lemma run_fresh_ids (es : list event) (s : State) :
  fresh_ids s -> fresh_ids (fst (run s es)).
Proof.
  revert s. induction es as [|e es IH]; intros s H; [exact H|].
  rewrite run_cons. apply IH. apply step_fresh_ids. exact H.
Qed.

Lemma init_fresh_ids : fresh_ids init.
Proof. intros id k H. discriminate H. Qed.

Lemma fresh_next_id (s : State) : fresh_ids s -> lookup (next_id s) (tasks s) = None.
Proof.
  intros Hf. destruct (lookup (next_id s) (tasks s)) as [k|] eqn:E; [|reflexivity].
  apply Hf in E. lia.
Qed.

(** ** One call of the capture button, followed through its awaits *)

Lemma capture_call_mono id r past more k :
  capture_call id r past k -> capture_call id r (past ++ more) k.
Proof.
  unfold capture_call. destruct k as [[]|]; try exact (fun H => H).
  intros [Hr [Hin|Hn]]; (split; [exact Hr|]).
  - left. apply in_or_app. left. exact Hin.
  - right. exact Hn.
Qed.

(** What the call does when it is resumed: it keeps the render of its
    trigger, and the form it uploads is filled from that render and from
    the session id the call was given. *)
Lemma capture_call_settle id r past (s : State) (o : settlement) :
  capture_call id r past (lookup id (tasks s)) ->
  capture_call id r (past ++ [Settle id o])
    (lookup id (tasks (fst (step s (Settle id o)))))
  /\ forall f, In (PostPhotos f) (snd (step s (Settle id o))) ->
       form_seq f = (seq r + 1)%N
       /\ exists sid,
            session_id f = id_to_string sid
            /\ (In (Settle id (Resolved (VJson sid))) past
                \/ (sid = None /\ (siteName r = "" \/ coords r = None))).
Proof.
  intros HJ. unfold Controller.step.
  destruct (lookup id (tasks s)) as [k|] eqn:Ek.
  2:{ cbn [fst snd]. rewrite Ek. split; [exact I|intros f []]. }
  assert (Hstay : capture_call id r (past ++ [Settle id o]) (Some k)).
  { apply capture_call_mono. exact HJ. }
  destruct (resume NumberToString userAgent (videoRef s) k o) as [x|] eqn:Er.
  2:{ cbn [fst snd]. rewrite Ek. split; [exact Hstay|intros f []]. }
  unfold continue. cbn [fst snd tasks]. rewrite lookup_park_same.
  clear Hstay Ek.
  destruct k as [r'|r' st|r' to|r' c|r' c|r' sid|r']; cbn in HJ; try contradiction.
  - destruct c; [contradiction|]. subst r'.
    destruct o as [[]|]; try discriminate; injection Er as <-; cbn;
      (split; [auto|intros f []; try discriminate; contradiction]).
  - destruct c; [contradiction|]. subst r'.
    destruct o as [[]|]; try discriminate; injection Er as <-.
    + cbn. unfold captureAndUpload. destruct (videoRef s); cbn.
      * split; [|intros f [H|[H|[]]]; discriminate].
        split; [reflexivity|]. left. apply in_or_app. right. left. reflexivity.
      * split; [exact I|intros f []].
    + cbn. split; [exact I|intros f []].
  - destruct HJ as [-> Hsid].
    destruct o as [[]|]; try discriminate; injection Er as <-.
    unfold upload. destruct (coords r) as [c|]; cbn.
    + split; [reflexivity|]. intros f [H|[]]. injection H as <-. cbn.
      split; [reflexivity|]. exists sid. split; [reflexivity|exact Hsid].
    + split; [exact I|intros f []].
  - subst r'.
    destruct o as [[]|]; try discriminate; injection Er as <-; cbn;
      (split; [exact I|intros f []]).
Qed.

Lemma capture_call_step id r past (s : State) (e : event) :
  (id < next_id s)%nat ->
  capture_call id r past (lookup id (tasks s)) ->
  capture_call id r (past ++ [e]) (lookup id (tasks (fst (step s e)))).
Proof.
  intros Hid HJ.
  assert (Hother : (forall o, e <> Settle id o) ->
            capture_call id r (past ++ [e]) (lookup id (tasks (fst (step s e))))).
  { intros Hne. rewrite step_other_call by assumption.
    apply capture_call_mono. exact HJ. }
  destruct e; try (apply Hother; discriminate).
  destruct (Nat.eq_dec id0 id) as [->|Hne].
  - apply capture_call_settle. exact HJ.
  - apply Hother. intros o' E. injection E as E _. congruence.
Qed.

Lemma capture_call_run id r (es : list event) :
  forall past (s : State),
    (id < next_id s)%nat ->
    capture_call id r past (lookup id (tasks s)) ->
    (id < next_id (fst (run s es)))%nat
    /\ capture_call id r (past ++ es) (lookup id (tasks (fst (run s es)))).
Proof.
  induction es as [|e es IH]; intros past s Hid HJ.
  - rewrite app_nil_r. split; assumption.
  - rewrite run_cons.
    replace (past ++ e :: es)%list with ((past ++ [e]) ++ es)%list
      by (rewrite <- app_assoc; reflexivity).
    apply IH.
    + pose proof (step_next_id s e). lia.
    + apply capture_call_step; assumption.
Qed.

(** The video element stays mounted. *)
Lemma step_videoRef (s : State) (e : event) :
  videoRef s <> None -> videoRef (fst (step s e)) <> None.
Proof.
  intros H. destruct e; unfold_handlers;
    repeat break_match; subst; try discriminate;
    repeat match goal with
           | H : Some _ = Some _ |- _ => injection H as <-
           end;
    cbn; try assumption; try discriminate.
Qed.

Lemma run_videoRef (es : list event) (s : State) :
  videoRef s <> None -> videoRef (fst (run s es)) <> None.
Proof.
  revert s. induction es as [|e es IH]; intros s H; [exact H|].
  rewrite run_cons. apply IH. apply step_videoRef. exact H.
Qed.

(** The trigger itself: the call is recorded with the render of the
    trigger. *)
Lemma capture_call_trigger (s : State) :
  fresh_ids s ->
  videoRef s <> None ->
  capture_enabled (render s) = true ->
  let s1 := fst (step s ClickCapture) in
  (next_id s < next_id s1)%nat
  /\ capture_call (next_id s) (render s) [] (lookup (next_id s) (tasks s1)).
Proof.
  intros Hf Hv He. unfold capture_enabled in He.
  unfold Controller.step. rewrite He.
  unfold spawn, createSession, withSessionId, captureAndUpload, also, finish, suspend.
  destruct (videoRef s) as [v|]; [clear Hv|contradiction].
  destruct (coords (render s)) as [c|] eqn:Ec.
  - destruct (truthy_string (siteName (render s))) eqn:Es; cbn.
    + rewrite Nat.eqb_refl. split; [lia|reflexivity].
    + assert (Hsite : siteName (render s) = "").
      { unfold truthy_string in Es.
        destruct (siteName (render s)); [reflexivity|discriminate Es]. }
      rewrite Nat.eqb_refl. split; [lia|].
      split; [reflexivity|]. right. split; [reflexivity|left; exact Hsite].
  - cbn. rewrite Nat.eqb_refl. split; [lia|].
    split; [reflexivity|]. right. split; [reflexivity|right; exact Ec].
Qed.

Lemma site_present (r : Render) : siteName r <> "" -> truthy_string (siteName r) = true.
Proof.
  intros H. unfold truthy_string.
  destruct (siteName r); [contradiction H; reflexivity|reflexivity].
Qed.

Lemma site_missing (r : Render) : truthy_string (siteName r) = false -> siteName r = "".
Proof.
  unfold truthy_string. intros H.
  destruct (siteName r); [reflexivity|discriminate H].
Qed.

(** The answer to one pending call leaves the other pending calls as
    they are. *)
Lemma step_settle_other (s : State) (id id' : nat) (o : settlement) :
  id <> id' ->
  lookup id (tasks (fst (step s (Settle id' o)))) = lookup id (tasks s).
Proof.
  intros Hne. unfold Controller.step, continue.
  repeat break_match; cbn [fst tasks]; try reflexivity.
  apply lookup_park_other. exact Hne.
Qed.

(** Every upload of the call carries the sequence number read at the
    trigger and the session id the call itself obtained. *)
Lemma capture_call_upload (es0 es : list event) (o : settlement) (f : PhotoForm) :
  let s := fst (run init es0) in
  let s1 := fst (step s ClickCapture) in
  capture_enabled (render s) = true ->
  In (PostPhotos f) (snd (step (fst (run s1 es)) (Settle (next_id s) o))) ->
  form_seq f = (seq (render s) + 1)%N
  /\ exists sid,
       session_id f = id_to_string sid
       /\ (In (Settle (next_id s) (Resolved (VJson sid))) es
           \/ (sid = None /\ (siteName (render s) = "" \/ coords (render s) = None))).
Proof.
  intros s s1 He Hin.
  assert (Hf : fresh_ids s) by (apply run_fresh_ids, init_fresh_ids).
  assert (Hv : videoRef s <> None) by (apply run_videoRef; discriminate).
  destruct (capture_call_trigger s Hf Hv He) as [Hid HJ].
  destruct (capture_call_run (next_id s) (render s) es [] s1 Hid HJ) as [_ HJ'].
  exact (proj2 (capture_call_settle _ _ _ _ o HJ') f Hin).
Qed.

(** ** A position is known while a session is active *)

Lemma step_coords_known (s : State) (e : event) :
  coords (render s) <> None -> coords (render (fst (step s e))) <> None.
Proof.
  intros H. pose proof (step_keeps_sensors s e) as Hk.
  destruct e;
    try (destruct Hk as (f & Hf & ->);
         destruct (Hf (render s)) as (_&_&Hc&_); rewrite Hc; exact H);
    try exact H.
  - cbn. unfold onPosition. destruct (startCoords (render s)); discriminate.
  - cbn. unfold onStorageEstimate. repeat break_match; exact H.
  - cbn. unfold handleOrient. repeat break_match; exact H.
Qed.

Lemma resume_snapshot v k o x k' :
  resume NumberToString userAgent v k o = Some x ->
  awaits x = Some k' ->
  snapshot k' = snapshot k
  /\ (past_check k' = true -> past_check k = true \/ coords (snapshot k) <> None).
Proof.
  intros Hr Ha.
  unfold resume, cameraError, upload, createSession, withSessionId,
    captureAndUpload, also, finish, suspend in Hr.
  repeat break_match; try discriminate; injection Hr as <-; cbn in Ha;
    try discriminate; injection Ha as <-; cbn;
    (split; [reflexivity|]); intros Hp; try discriminate;
    first [left; reflexivity | right; congruence].
Qed.

Lemma step_capturing_origin (s : State) (e : event) :
  capturing (render (fst (step s e))) = true ->
  capturing (render s) = true
  \/ exists id o r, e = Settle id o /\ lookup id (tasks s) = Some (KJson r ByStart).
Proof.
  destruct e; unfold_handlers;
    repeat break_match; subst; try discriminate;
    repeat match goal with
           | H : Some _ = Some _ |- _ => injection H as <-
           end;
    cbn; intros H;
    try (left; first [assumption | reflexivity | congruence]); try discriminate.
  all: right; eexists _, _, _; split; [reflexivity|eassumption].
Qed.

Lemma spawn_task_origin (s : State) (x : reaction) (id : nat) (k : cont) :
  lookup id (tasks (fst (spawn s x))) = Some k ->
  lookup id (tasks s) = Some k \/ awaits x = Some k.
Proof.
  unfold spawn. destruct (awaits x) as [k0|]; cbn.
  - destruct (next_id s =? id)%nat.
    + intros H. right. exact H.
    + intros H. left. exact H.
  - intros H. left. exact H.
Qed.

(** Where a pending call comes from: it was pending already, or it was
    just made in the current render, or it is an earlier call going on. *)
Lemma step_task_origin (s : State) (e : event) (id : nat) (k : cont) :
  lookup id (tasks (fst (step s e))) = Some k ->
  lookup id (tasks s) = Some k
  \/ (snapshot k = render s /\ (past_check k = true -> coords (render s) <> None))
  \/ (exists k0,
        lookup id (tasks s) = Some k0 /\ snapshot k = snapshot k0
        /\ (past_check k = true ->
            past_check k0 = true \/ coords (snapshot k0) <> None)).
Proof.
  destruct e; unfold Controller.step; try (cbn; intros H; left; exact H).
  - destruct (capturing (render s)); [intros H; left; exact H|].
    intros Hk. apply spawn_task_origin in Hk. destruct Hk as [Hk|Hk]; [auto|].
    right. left. revert Hk. unfold onStart, startCamera, also, finish, suspend.
    repeat break_match; cbn; intros Hk; try discriminate;
      injection Hk as <-; split; try reflexivity; discriminate.
  - destruct (capturing (render s) && negb (angleWarning (render s)));
      [|intros H; left; exact H].
    intros Hk. apply spawn_task_origin in Hk. destruct Hk as [Hk|Hk]; [auto|].
    right. left. revert Hk.
    unfold createSession, withSessionId, captureAndUpload, also, finish, suspend.
    repeat break_match; cbn; intros Hk; try discriminate;
      injection Hk as <-; split; try reflexivity; try discriminate; congruence.
  - destruct (capturing (render s)); [|intros H; left; exact H].
    intros Hk. apply spawn_task_origin in Hk. destruct Hk as [Hk|Hk]; [auto|].
    discriminate Hk.
  - destruct (lookup id0 (tasks s)) as [k0|] eqn:Ek0; [|intros H; left; exact H].
    destruct (resume NumberToString userAgent (videoRef s) k0 o) as [x|] eqn:Er;
      [|intros H; left; exact H].
    unfold continue. cbn [fst tasks].
    destruct (Nat.eq_dec id id0) as [->|Hne].
    + rewrite lookup_park_same. intros Hk.
      destruct (resume_snapshot _ _ _ _ _ Er Hk) as [Hsnap Hpast].
      right. right. exists k0. repeat split; assumption.
    + rewrite lookup_park_other by assumption. intros H. left. exact H.
Qed.

Lemma position_known_step (s : State) (e : event) :
  position_known s -> position_known (fst (step s e)).
Proof.
  intros [Hcap Htasks]. split.
  - intros Hc. destruct (step_capturing_origin s e Hc) as [H|(id & o & r & -> & Hk)].
    + apply step_coords_known. apply Hcap. exact H.
    + apply step_coords_known.
      destruct (Htasks _ _ Hk) as [Hnow Hpast].
      apply Hnow. apply Hpast. reflexivity.
  - intros id k Hk.
    destruct (step_task_origin s e id k Hk)
      as [H|[[Hsnap Hp]|(k0 & H0 & Hsnap & Hp)]].
    + destruct (Htasks _ _ H) as [Hnow Hpast]. split; [|exact Hpast].
      intros Hs. apply step_coords_known. apply Hnow. exact Hs.
    + rewrite Hsnap. split; [apply step_coords_known|exact Hp].
    + destruct (Htasks _ _ H0) as [Hnow0 Hpast0]. rewrite Hsnap. split.
      * intros Hs. apply step_coords_known. apply Hnow0. exact Hs.
      * intros Hq. destruct (Hp Hq) as [H|H]; [apply Hpast0; exact H|exact H].
Qed.

Lemma position_known_run (es : list event) (s : State) :
  position_known s -> position_known (fst (run s es)).
Proof.
  revert s. induction es as [|e es IH]; intros s H; [exact H|].
  rewrite run_cons. apply IH. apply position_known_step. exact H.
Qed.

Lemma position_known_init : position_known init.
Proof.
  split; [discriminate|]. intros id k H. discriminate H.
Qed.

(** C1, as the code has it.  Every accepted capture trigger made with a
    site name issues a session-creation request of its own, on top of the
    one [onStart] issued (a position is always known by then), and every
    upload of that capture carries the session id returned to that very
    request.  The id [onStart] obtained is only tested and dropped: what
    [onStart] does with a usable id does not depend on the id. *)
Theorem capture_creates_its_own_session
    (es0 es : list event) (o : settlement) (f : PhotoForm) :
  let s := fst (run init es0) in
  let s1 := fst (step s ClickCapture) in
  capture_enabled (render s) = true ->
  siteName (render s) <> "" ->
  (exists position,
      coords (render s) = Some position
      /\ snd (step s ClickCapture)
         = [PostSessions {| site_name := siteName (render s);
                            body_date := date (render s);
                            start_lat := latitude position;
                            start_lng := longitude position;
                            device := userAgent |}])
  /\ lookup (next_id s) (tasks s1) = Some (KFetchSession (render s) ByCapture)
  /\ (In (PostPhotos f) (snd (step (fst (run s1 es)) (Settle (next_id s) o))) ->
      exists sid,
        In (Settle (next_id s) (Resolved (VJson sid))) es
        /\ session_id f = id_to_string sid)
  /\ (forall v r sid sid',
        falsy_id sid = false -> falsy_id sid' = false ->
        withSessionId ByStart v r sid = withSessionId ByStart v r sid').
Proof.
  intros s s1 He Hsite.
  assert (Hpos : exists position, coords (render s) = Some position).
  { assert (Hk : position_known s) by (apply position_known_run, position_known_init).
    destruct Hk as [Hk _]. unfold capture_enabled in He.
    apply andb_true_iff in He. destruct He as [Hc _]. specialize (Hk Hc).
    destruct (coords (render s)) as [p|]; [exists p; reflexivity|congruence]. }
  destruct Hpos as [position Hpos].
  assert (Hstep : step s ClickCapture
                  = spawn s (createSession userAgent ByCapture (videoRef s) (render s))).
  { unfold Controller.step. unfold capture_enabled in He. rewrite He. reflexivity. }
  assert (Hcs : createSession userAgent ByCapture (videoRef s) (render s)
                = suspend (videoRef s) (KFetchSession (render s) ByCapture)
                    [PostSessions {| site_name := siteName (render s);
                                     body_date := date (render s);
                                     start_lat := latitude position;
                                     start_lng := longitude position;
                                     device := userAgent |}]).
  { unfold createSession. rewrite Hpos, (site_present _ Hsite). reflexivity. }
  split; [|split; [|split]].
  - exists position. split; [exact Hpos|]. rewrite Hstep, Hcs. reflexivity.
  - unfold s1. rewrite Hstep, Hcs. cbn. rewrite Nat.eqb_refl. reflexivity.
  - intros Hin.
    destruct (capture_call_upload es0 es o f He Hin) as [_ (sid & Hid & [Hpast|[_ [H|H]]])].
    + exists sid. split; assumption.
    + contradiction.
    + fold s in H. congruence.
  - intros v r sid sid' H H'. unfold withSessionId. rewrite H, H'. reflexivity.
Qed.

(** C9, as the code has it.  The sequence number of a capture is read at
    the trigger, as the counter of that render plus one, and is what the
    upload carries whatever happens in between; the counter itself only
    advances when an upload is answered.  So a second trigger made before
    the counter has advanced uploads under the same number as the first.
    Two pending uploads can be answered in either order: the answer to
    one leaves the other pending. *)
Theorem capture_sequence_number (es0 es1 : list event) :
  let s := fst (run init es0) in
  let s1 := fst (step s ClickCapture) in
  let s2 := fst (run s1 es1) in
  let s3 := fst (step s2 ClickCapture) in
  capture_enabled (render s) = true ->
  (forall es o f,
      In (PostPhotos f) (snd (step (fst (run s1 es)) (Settle (next_id s) o))) ->
      form_seq f = (seq (render s) + 1)%N)
  /\ (capture_enabled (render s2) = true ->
      seq (render s2) = seq (render s) ->
      forall es o f,
        In (PostPhotos f) (snd (step (fst (run s3 es)) (Settle (next_id s2) o))) ->
        form_seq f = (seq (render s) + 1)%N)
  /\ (forall (t : State) id1 id2 r1 r2 o,
        id1 <> id2 ->
        lookup id1 (tasks t) = Some (KFetchPhoto r1) ->
        lookup id2 (tasks t) = Some (KFetchPhoto r2) ->
        lookup id1 (tasks (fst (step t (Settle id2 o)))) = Some (KFetchPhoto r1)
        /\ lookup id2 (tasks (fst (step t (Settle id1 o)))) = Some (KFetchPhoto r2)).
Proof.
  intros s s1 s2 s3 He. split; [|split].
  3:{ intros t id1 id2 r1 r2 o Hne H1 H2.
      rewrite !step_settle_other by congruence. split; assumption. }
  - intros es o f Hin. exact (proj1 (capture_call_upload es0 es o f He Hin)).
  - intros He2 Hseq es o f Hin. rewrite <- Hseq.
    assert (Hs2 : s2 = fst (run init (es0 ++ ClickCapture :: es1))).
    { unfold s2, s1, s. rewrite run_app, run_cons. reflexivity. }
    revert He2 Hin. unfold s3. rewrite Hs2. intros He2 Hin.
    exact (proj1 (capture_call_upload _ es o f He2 Hin)).
Qed.

(** ** One call of [onStart], followed through [startCamera] *)

Lemma createSession_refused c v (r : Render) :
  siteName r = "" \/ coords r = None ->
  createSession userAgent c v r
  = also (fun x => x) [Alert SiteAndLocationRequired] (withSessionId c v r None).
Proof.
  intros H. unfold createSession.
  destruct (coords r) as [p|]; [|reflexivity].
  destruct H as [H|H]; [|discriminate]. rewrite H. reflexivity.
Qed.

Lemma starting_settle id (r : Render) (s : State) (o : settlement) :
  siteName r = "" \/ coords r = None ->
  starting r (lookup id (tasks s)) ->
  starting r (lookup id (tasks (fst (step s (Settle id o)))))
  /\ (forall x, In x (snd (step s (Settle id o))) -> is_PostSessions x = false)
  /\ started (render (fst (step s (Settle id o)))) = started (render s)
  /\ capturing (render (fst (step s (Settle id o)))) = capturing (render s).
Proof.
  intros Hr HJ. unfold Controller.step.
  destruct (lookup id (tasks s)) as [k|] eqn:Ek.
  2:{ cbn [fst snd]. rewrite Ek. repeat split; try exact I. intros x []. }
  destruct (resume NumberToString userAgent (videoRef s) k o) as [x|] eqn:Er.
  2:{ cbn [fst snd]. rewrite Ek. repeat split; try exact HJ. intros x []. }
  unfold continue. cbn [fst snd tasks render]. rewrite lookup_park_same.
  clear Ek.
  destruct k as [r'|r' st|r' to|r' c|r' c|r' sid|r']; cbn in HJ; try contradiction;
    subst r'; unfold resume, cameraError in Er;
    rewrite ?(createSession_refused ByStart _ r Hr) in Er;
    repeat break_match; try discriminate; injection Er as <-; cbn;
    (split; [try exact I; try reflexivity|]);
    (split; [|split; reflexivity]);
    intros y Hy; cbn in Hy;
    repeat (destruct Hy as [<-|Hy]; [reflexivity|]); contradiction.
Qed.

Lemma starting_step id (r : Render) (s : State) (e : event) :
  siteName r = "" \/ coords r = None ->
  (id < next_id s)%nat ->
  starting r (lookup id (tasks s)) ->
  starting r (lookup id (tasks (fst (step s e)))).
Proof.
  intros Hr Hid HJ.
  assert (Hother : (forall o, e <> Settle id o) ->
            starting r (lookup id (tasks (fst (step s e))))).
  { intros Hne. rewrite step_other_call by assumption. exact HJ. }
  destruct e; try (apply Hother; discriminate).
  destruct (Nat.eq_dec id0 id) as [->|Hne].
  - apply starting_settle; assumption.
  - apply Hother. intros o' E. injection E as E _. congruence.
Qed.

Lemma starting_run id (r : Render) (es : list event) :
  siteName r = "" \/ coords r = None ->
  forall s : State,
    (id < next_id s)%nat ->
    starting r (lookup id (tasks s)) ->
    starting r (lookup id (tasks (fst (run s es)))).
Proof.
  intros Hr. induction es as [|e es IH]; intros s Hid HJ; [exact HJ|].
  rewrite run_cons. apply IH.
  - pose proof (step_next_id s e). lia.
  - apply starting_step; assumption.
Qed.

(** C10.  With an empty site name or no position yet, [createSession]
    only raises the alert: it sends no request and hands [undefined] to
    its caller, and called by [onStart] it ends the call there.  A call
    of [onStart] made in such a render (and past the storage and battery
    checks) therefore never sends a session-creation request and never
    changes [started] or [capturing], whatever the camera does and
    whatever else happens meanwhile. *)
Theorem createSession_needs_site_and_position
    (es0 es : list event) (confirmAnswer : bool) (o : settlement) :
  let s := fst (run init es0) in
  let s1 := fst (step s (ClickStart confirmAnswer)) in
  let before := fst (run s1 es) in
  let after := step before (Settle (next_id s) o) in
  siteName (render s) = "" \/ coords (render s) = None ->
  capturing (render s) = false ->
  storageOk (render s) = true ->
  (batteryLow (render s) = true -> confirmAnswer = true) ->
  (forall c v,
      createSession userAgent c v (render s)
      = also (fun x => x) [Alert SiteAndLocationRequired]
          (withSessionId c v (render s) None))
  /\ (forall v,
        createSession userAgent ByStart v (render s)
        = finish v [Alert SiteAndLocationRequired])
  /\ lookup (next_id s) (tasks s1) = Some (KGetUserMedia (render s))
  /\ (forall x, In x (snd after) -> is_PostSessions x = false)
  /\ started (render (fst after)) = started (render before)
  /\ capturing (render (fst after)) = capturing (render before).
Proof.
  intros s s1 before after Hr Hc Hs Hb.
  split; [intros c v; apply createSession_refused; exact Hr|].
  split; [intros v; rewrite (createSession_refused ByStart v _ Hr); reflexivity|].
  assert (Hs1 : s1 = mkState (render s) (videoRef s)
                       ((next_id s, KGetUserMedia (render s)) :: tasks s)
                       (S (next_id s))).
  { unfold s1, Controller.step, onStart, startCamera. rewrite Hc, Hs.
    destruct (batteryLow (render s)); [rewrite (Hb eq_refl)|]; reflexivity. }
  assert (Hk : lookup (next_id s) (tasks s1) = Some (KGetUserMedia (render s))).
  { rewrite Hs1. cbn. rewrite Nat.eqb_refl. reflexivity. }
  split; [exact Hk|].
  assert (HJ : starting (render s) (lookup (next_id s) (tasks before))).
  { apply starting_run; [exact Hr| |].
    - rewrite Hs1. cbn. lia.
    - rewrite Hk. reflexivity. }
  exact (proj2 (starting_settle _ _ before o Hr HJ)).
Qed.

End ControllerFacts.

(** * The behaviours on concrete runs *)

Section Runs.

Import Controller ControllerSpec Scenario.

Local Open Scope js_scope.
Local Open Scope list_scope.

(** ** Starting *)

Lemma onStart_preconditions_witness :
  let full := fst (run init [StorageEstimate (Some 100) (Some 50); BatteryLevel (1 # 10)]) in
  let weak := fst (run init [BatteryLevel (1 # 10)]) in
  step full (ClickStart true) = (full, [Alert NotEnoughStorage])
  /\ step weak (ClickStart false) = (weak, [Confirm]).
Proof.
  intros full weak. split.
  - apply (proj1 (onStart_preconditions numberToString agent full true eq_refl)).
    reflexivity.
  - apply (proj2 (onStart_preconditions numberToString agent weak false eq_refl));
      reflexivity.
Defined.

Lemma createSession_needs_site_and_position_witness :
  let s1 := fst (step init (ClickStart true)) in
  let after := step s1 (Settle 0 (Rejected "denied")) in
  (forall x, In x (snd after) -> is_PostSessions x = false)
  /\ started (render (fst after)) = false
  /\ capturing (render (fst after)) = false.
Proof.
  intros s1 after.
  pose proof (createSession_needs_site_and_position numberToString agent day
                [] [] true (Rejected "denied")
                (or_introl eq_refl) eq_refl eq_refl (fun _ => eq_refl))
    as (_ & _ & _ & Hno & Hs & Hc).
  split; [exact Hno|]. split; [exact Hs|exact Hc].
Defined.

(** ** Sessions and uploads *)

(** C1 fails on the code: in a session started once and with one photo
    taken, two session-creation requests are sent, the second one by the
    capture trigger, and the upload carries the id returned to the second
    request ("S2"), not the one returned when the session started
    ("S1"). *)
Lemma session_request_repeated_by_capture :
  let out :=
    snd (run init (to_active ++ ClickCapture :: session_answer 1 "S2"
                     ++ [Settle 1 (Resolved VBlob)])) in
  List.length (filter is_PostSessions out) = 2%nat
  /\ upload_session_ids out = ["S2"].
Proof. vm_compute. split; reflexivity. Qed.

Lemma capture_creates_its_own_session_witness :
  exists sid,
    In (Settle 1 (Resolved (VJson sid))) (session_answer 1 "S2")
    /\ session_id (first_form "S2") = id_to_string sid.
Proof.
  refine (proj1 (proj2 (proj2 (capture_creates_its_own_session numberToString agent day
            to_active (session_answer 1 "S2") (Resolved VBlob) (first_form "S2")
            eq_refl _))) _).
  - discriminate.
  - vm_compute. left. reflexivity.
Defined.

(** ** The sequence counter *)

(** C2 fails on the code: a capture is triggered in an active session and
    its upload is attempted, under number 1, but the request is rejected;
    the counter is still 0 after the trigger and still 0 at the end. *)
Lemma seq_unchanged_when_upload_rejected :
  let triggered := fst (step active ClickCapture) in
  let finished :=
    run triggered (session_answer 1 "S2"
                     ++ [Settle 1 (Resolved VBlob); Settle 1 (Rejected "offline")]) in
  capture_enabled (render active) = true
  /\ seq (render active) = 0%N
  /\ seq (render triggered) = 0%N
  /\ upload_seqs (snd finished) = [1%N]
  /\ tasks (fst finished) = []
  /\ seq (render (fst finished)) = 0%N.
Proof. vm_compute. repeat split; reflexivity. Qed.

(** C9 fails on the code: two capture triggers in a row, before anything
    of the first is answered, upload under the same number 1 and the same
    file name. *)
Lemma rapid_triggers_share_a_number :
  let out :=
    snd (run active ([ClickCapture; ClickCapture]
                       ++ session_answer 1 "S2" ++ session_answer 2 "S3"
                       ++ [Settle 1 (Resolved VBlob); Settle 2 (Resolved VBlob)])) in
  upload_seqs out = [1%N; 1%N]
  /\ filter is_PostPhotos out
     = [PostPhotos (first_form "S2"); PostPhotos (first_form "S3")].
Proof. vm_compute. split; reflexivity. Qed.

Lemma capture_sequence_number_witness :
  let s1 := fst (step active ClickCapture) in
  let s3 := fst (step s1 ClickCapture) in
  form_seq (first_form "S2") = 1%N /\ form_seq (first_form "S3") = 1%N.
Proof.
  intros s1 s3.
  pose proof (capture_sequence_number numberToString agent day to_active [] eq_refl)
    as (Hfirst & Hsecond & _).
  split.
  - apply (Hfirst (session_answer 1 "S2") (Resolved VBlob) (first_form "S2")).
    vm_compute. left. reflexivity.
  - apply (Hsecond eq_refl eq_refl (session_answer 2 "S3") (Resolved VBlob)
             (first_form "S3")).
    vm_compute. left. reflexivity.
Defined.

(** ** The tilt gate and the baseline *)

(** C3 fails on the code: right after the start of a session no
    orientation sample has come, the baseline is unset, and the capture
    trigger is accepted all the same: a photo is uploaded. *)
Lemma capture_accepted_without_baseline :
  angleBaseline (render active) = None
  /\ capturing (render active) = true
  /\ upload_seqs
       (snd (run active (ClickCapture :: session_answer 1 "S2"
                           ++ [Settle 1 (Resolved VBlob)])))
     = [1%N].
Proof. vm_compute. repeat split; reflexivity. Qed.

Lemma capture_gate_witness :
  let tilted :=
    fst (run init (to_active ++ [DeviceOrientation None (Some 10%float);
                                 DeviceOrientation None (Some 40%float)])) in
  step tilted ClickCapture = (tilted, [])
  /\ (exceeds_tolerance (deviation (render tilted) 10%float) ->
      step tilted ClickCapture = (tilted, [])).
Proof.
  intros tilted.
  pose proof (capture_gate numberToString agent day
                (to_active ++ [DeviceOrientation None (Some 10%float);
                               DeviceOrientation None (Some 40%float)]))
    as (Hwarning & Hdeviation & _).
  split.
  - apply Hwarning. reflexivity.
  - apply Hdeviation. reflexivity.
Defined.

(** The deviation compared with 5 is the rounded difference of the two
    readings.  With the baseline at 0.7 a pitch of 5.7 gives a difference
    of exactly 5: no warning is raised and the capture trigger is
    accepted.  A pitch of 5.8 raises the warning. *)
Lemma warning_follows_rounded_difference :
  let based := fst (step active (DeviceOrientation None (Some 0.7%float))) in
  let at_5_7 := fst (step based (DeviceOrientation None (Some 5.7%float))) in
  let at_5_8 := fst (step based (DeviceOrientation None (Some 5.8%float))) in
  angleBaseline (render at_5_7) = Some 0.7%float
  /\ deviation (render at_5_7) 0.7%float = 5%float
  /\ angleWarning (render at_5_7) = false
  /\ snd (step at_5_7 ClickCapture) <> []
  /\ angleWarning (render at_5_8) = true
  /\ step at_5_8 ClickCapture = (at_5_8, []).
Proof.
  vm_compute. repeat split; try reflexivity. discriminate.
Qed.

(** C5 fails on the code: a first session takes its baseline (10) from
    its first orientation sample and is stopped; the baseline is still
    set when the second session starts, and the first sample of the
    second session (pitch 40) does not set it: the second session runs
    against the baseline of the first, with the warning raised. *)
Lemma baseline_not_taken_in_second_session :
  let first := to_active ++ [DeviceOrientation None (Some 10%float); ClickStop] in
  let stopped := fst (run init first) in
  let restarted := fst (run stopped (start_session 1 "S2")) in
  let sampled := fst (step restarted (DeviceOrientation None (Some 40%float))) in
  started (render stopped) = false
  /\ angleBaseline (render stopped) = Some 10%float
  /\ started (render restarted) = true
  /\ pitchRef (render sampled) = Some 40%float
  /\ angleBaseline (render sampled) = Some 10%float
  /\ angleWarning (render sampled) = true.
Proof. vm_compute. repeat split; reflexivity. Qed.

Lemma angleBaseline_set_once_witness :
  (exists alpha p,
      DeviceOrientation None (Some 10%float) = DeviceOrientation alpha (Some p)
      /\ started (render active) = true
      /\ angleBaseline (render active) = None
      /\ angleBaseline
           (render (fst (step active (DeviceOrientation None (Some 10%float)))))
         = Some p)
  /\ angleBaseline (render (fst (step active (DeviceOrientation None (Some 0%float)))))
     = Some 0%float
  /\ angleBaseline
       (render (fst (run active [DeviceOrientation None None;
                                 DeviceOrientation None (Some 0%float)])))
     = Some 0%float
  /\ angleBaseline
       (render (fst (run active (DeviceOrientation None (Some 10%float)
                                   :: [DeviceOrientation None (Some 40%float)]))))
     = Some 10%float
  /\ angleBaseline (render (fst (step init (DeviceOrientation None (Some 10%float)))))
     = None
  /\ angleBaseline
       (render (fst (run (fst (step active (DeviceOrientation None (Some 10%float))))
                       (ClickStop :: start_session 1 "S2"
                          ++ [DeviceOrientation None (Some 40%float)]))))
     = Some 10%float.
Proof.
  split; [|split; [|split; [|split; [|split]]]].
  - apply (proj1 (angleBaseline_set_once numberToString agent active
                    (DeviceOrientation None (Some 10%float)))).
    vm_compute. discriminate.
  - apply (proj1 (proj2 (angleBaseline_set_once numberToString agent active
                           (DeviceOrientation None None))));
      reflexivity.
  - apply (proj1 (proj2 (angleBaseline_set_once numberToString agent
                           (fst (step active (DeviceOrientation None None)))
                           (DeviceOrientation None None))));
      reflexivity.
  - apply (proj1 (proj2 (proj2 (angleBaseline_set_once numberToString agent active
                                  (DeviceOrientation None None)))));
      reflexivity.
  - apply (proj1 (proj2 (proj2 (proj2
             (angleBaseline_set_once numberToString agent init
                (DeviceOrientation None (Some 10%float)))))));
      reflexivity.
  - apply (proj2 (proj2 (proj2 (proj2
             (angleBaseline_set_once numberToString agent
                (fst (step active (DeviceOrientation None (Some 10%float))))
                (DeviceOrientation None None)))))).
    reflexivity.
Defined.

End Runs.

(** * Further properties of the code *)

(** ** The file name *)

Section FilenameMore.

Import CodeSpec.

Lemma allowed_safe_char (c : N) :
  FilenameSpec.allowed (if FilenameSpec.allowed c then c else N_of_ascii "_") = true.
Proof.
  destruct (FilenameSpec.allowed c) eqn:E; [exact E|reflexivity].
Qed.

Lemma safeSite_allowed (s : jsstring) :
  all_units FilenameSpec.allowed (FilenameSpec.safeSite s) = true.
Proof.
  induction s as [|c s IH]; [reflexivity|].
  cbn [FilenameSpec.safeSite all_units]. rewrite allowed_safe_char, IH. reflexivity.
Qed.

Lemma safeSite_fixed (s : jsstring) :
  all_units FilenameSpec.allowed s = true -> FilenameSpec.safeSite s = s.
Proof.
  induction s as [|c s IH]; [reflexivity|].
  cbn [FilenameSpec.safeSite all_units]. intros H.
  apply andb_true_iff in H. destruct H as [Hc Hs].
  rewrite Hc, (IH Hs). reflexivity.
Qed.

(** X1.  The site segment of a file name holds only letters, digits, [_] and
    [-]; a site name that holds nothing else is kept as it is; and
    sanitising a sanitised name changes nothing. *)
Theorem sanitised_site_is_safe (site : jsstring) :
  let clean := JS.replace_global Filename.unsafe_chars "_" in
  all_units FilenameSpec.allowed (clean site) = true
  /\ (all_units FilenameSpec.allowed site = true -> clean site = site)
  /\ clean (clean site) = clean site.
Proof.
  intros clean. unfold clean. rewrite !replace_safeSite.
  split; [apply safeSite_allowed|]. split; [apply safeSite_fixed|].
  apply safeSite_fixed, safeSite_allowed.
Qed.

Lemma sanitised_site_is_safe_witness :
  JS.replace_global Filename.unsafe_chars "_" "Trench-7_b" = "Trench-7_b"%js.
Proof.
  apply (proj1 (proj2 (sanitised_site_is_safe "Trench-7_b"))). reflexivity.
Defined.

Lemma read_digits_app (a b : string) :
  forall acc, read_digits acc (a ++ b) = read_digits (read_digits acc a) b.
Proof.
  induction a as [|c a IH]; intros acc; [reflexivity|]. simpl. apply IH.
Qed.

Lemma digit_char_value (d : N) : (d < 10)%N -> digit_value (JS.digit_char d) = d.
Proof.
  intros H. unfold digit_value, JS.digit_char.
  rewrite N_ascii_embedding by lia. lia.
Qed.

Lemma digit_char_is_digit (d : N) : (d < 10)%N -> is_digit (JS.digit_char d) = true.
Proof.
  intros H. unfold is_digit, JS.digit_char.
  rewrite N_ascii_embedding by lia.
  apply andb_true_iff. split; apply N.leb_le; lia.
Qed.

Lemma all_chars_app (p : ascii -> bool) (a b : string) :
  all_chars p (a ++ b) = all_chars p a && all_chars p b.
Proof.
  induction a as [|c a IH]; [reflexivity|]. simpl. rewrite IH.
  apply andb_assoc.
Qed.

Lemma decimal_digits_read (n : N) :
  read_digits 0 (JS.decimal_digits n) = n
  /\ all_chars is_digit (JS.decimal_digits n) = true.
Proof.
  induction n as [n IH] using (well_founded_induction N.lt_wf_0).
  destruct (N.lt_ge_cases n 10) as [Hs|Hb].
  - rewrite decimal_digits_small by assumption. cbn [read_digits all_chars].
    rewrite digit_char_value, digit_char_is_digit by assumption.
    split; [lia|reflexivity].
  - rewrite decimal_digits_step by assumption.
    assert (Hq : (n / 10 < n)%N) by (apply N.div_lt; lia).
    destruct (IH _ Hq) as [Hr Hd].
    assert (Hm : (n mod 10 < 10)%N) by (apply N.mod_lt; lia).
    rewrite read_digits_app, Hr, all_chars_app, Hd. cbn [read_digits all_chars].
    rewrite digit_char_value, digit_char_is_digit by assumption.
    split; [|reflexivity].
    pose proof (N.div_mod n 10). lia.
Qed.

Lemma repeat_zero_read (k : nat) :
  forall s, read_digits 0 (JS.repeat_string "0" k ++ s) = read_digits 0 s.
Proof.
  induction k as [|k IH]; intros s; [reflexivity|].
  cbn [JS.repeat_string append]. simpl read_digits. apply IH.
Qed.

Lemma repeat_zero_digits (k : nat) :
  all_chars is_digit (JS.repeat_string "0" k) = true.
Proof. induction k as [|k IH]; [reflexivity|]. simpl. exact IH. Qed.

Lemma padStart_zeros (s : string) (w : nat) :
  JS.padStart s w "0" = JS.repeat_string "0" (w - String.length s) ++ s.
Proof.
  unfold JS.padStart. cbn [String.length Nat.eqb].
  destruct (Nat.leb_spec w (String.length s)) as [H|H].
  - replace (w - String.length s)%nat with 0%nat by lia. reflexivity.
  - f_equal.
    rewrite <- (length_repeat_char "0" (w - String.length s)) at 1.
    apply take_all.
Qed.

(** X2.  The sequence segment of a file name, [String(seq).padStart(3, '0')],
    is made of decimal digits only, is at least three characters long
    (exactly three below 1000), and reads back as the sequence number.
    [String(seq)] is the decimal digits of [seq] as long as [seq] is
    below 10^21. *)
Theorem sequence_segment_reads_back (NumberToString : Q -> string) (n : N) :
  let segment := JS.padStart (JS.decimal_digits n) 3 "0" in
  all_chars is_digit segment = true
  /\ read_digits 0 segment = n
  /\ (3 <= String.length segment)%nat
  /\ ((n < 1000)%N -> String.length segment = 3%nat)
  /\ ((n < 10 ^ 21)%N ->
      JS.padStart (JS.ToString NumberToString n) 3 "0" = segment).
Proof.
  intros segment. unfold segment.
  destruct (decimal_digits_read n) as [Hr Hd].
  split; [|split; [|split; [|split]]].
  - rewrite padStart_zeros, all_chars_app, repeat_zero_digits, Hd. reflexivity.
  - rewrite padStart_zeros, repeat_zero_read. exact Hr.
  - rewrite padStart_zeros, length_append, length_repeat_char. lia.
  - intros H. rewrite padStart_seq3. unfold FilenameSpec.seq3.
    apply N.ltb_lt in H. rewrite H. apply length_place_digits.
  - intros H. unfold JS.ToString. apply N.ltb_lt in H. rewrite H. reflexivity.
Qed.

Lemma sequence_segment_reads_back_witness :
  String.length (JS.padStart (JS.decimal_digits 42) 3 "0") = 3%nat
  /\ JS.padStart (JS.ToString (fun _ => EmptyString) 42) 3 "0"
     = JS.padStart (JS.decimal_digits 42) 3 "0".
Proof.
  pose proof (sequence_segment_reads_back (fun _ => EmptyString) 42)
    as (_ & _ & _ & Hlength & Hcode).
  split; [apply Hlength; reflexivity|apply Hcode; reflexivity].
Defined.

Lemma place_digits_read (j : nat) :
  forall n acc,
    read_digits acc (FilenameSpec.place_digits j n)
    = (acc * 10 ^ N.of_nat j + n mod 10 ^ N.of_nat j)%N
    /\ all_chars is_digit (FilenameSpec.place_digits j n) = true.
Proof.
  induction j as [|j IH]; intros n acc.
  - simpl. rewrite N.mod_1_r. split; [lia|reflexivity].
  - cbn [FilenameSpec.place_digits].
    destruct (IH (n / 10)%N acc) as [Hr Hd].
    assert (Hm : (n mod 10 < 10)%N) by (apply N.mod_lt; lia).
    rewrite read_digits_app, Hr, all_chars_app, Hd. cbn [read_digits all_chars].
    rewrite digit_char_value, digit_char_is_digit by assumption.
    split; [|reflexivity].
    rewrite Nnat.Nat2N.inj_succ, N.pow_succ_r'.
    rewrite (N.Div0.mod_mul_r n 10 (10 ^ N.of_nat j)). lia.
Qed.

Lemma nearest_integer_half (x : Q) (f : nat) :
  (Qabs (inject_Z (JS.nearest_integer x f) - x * inject_Z (10 ^ Z.of_nat f)) <= 1 # 2)%Q.
Proof.
  unfold JS.nearest_integer.
  set (y := (x * inject_Z (10 ^ Z.of_nat f))%Q).
  assert (Hlo : (inject_Z (Qfloor (y + (1 # 2))) <= y + (1 # 2))%Q) by apply Qfloor_le.
  assert (Hhi : (y + (1 # 2) < inject_Z (Qfloor (y + (1 # 2)) + 1))%Q) by apply Qlt_floor.
  rewrite inject_Z_plus in Hhi. change (inject_Z 1) with 1%Q in Hhi.
  clearbody y. apply Qabs_Qle_condition. split; lra.
Qed.

Lemma nearest_integer_nonneg (x : Q) (f : nat) :
  (0 <= x)%Q -> (0 <= JS.nearest_integer x f)%Z.
Proof.
  intros H. unfold JS.nearest_integer.
  change 0%Z with (Qfloor 0). apply Qfloor_resp_le.
  assert (H10 : (0 <= inject_Z (10 ^ Z.of_nat f))%Q).
  { change 0%Q with (inject_Z 0). rewrite <- Zle_Qle. apply Z.pow_nonneg. lia. }
  pose proof (Qmult_le_0_compat _ _ H H10). lra.
Qed.

(** X3.  A coordinate segment of a file name, [x.toFixed(6)] for a coordinate
    below 10^21 in magnitude, is the sign, an integer part, a dot and six
    digits, and the number its digits spell is within half a millionth of
    the coordinate: read as an integer, the digits differ from
    |x| * 10^6 by at most 1/2. *)
Theorem coordinate_segment_accuracy (NumberToString : Q -> string) (x : Q) :
  (Qabs x < inject_Z (10 ^ 21))%Q ->
  exists whole fraction,
    JS.toFixed NumberToString x 6
    = (if JS.Qlt_bool x 0 then "-" else "") ++ whole ++ "." ++ fraction
    /\ String.length fraction = 6%nat
    /\ (1 <= String.length whole)%nat
    /\ all_chars is_digit (whole ++ fraction) = true
    /\ (Qabs (inject_Z (Z.of_N (read_digits 0 (whole ++ fraction)))
              - Qabs x * inject_Z 1000000) <= 1 # 2)%Q.
Proof.
  intros Hx.
  set (n := Z.to_N (JS.nearest_integer (Qabs x) 6)).
  exists (JS.decimal_digits (n / 10 ^ 6)), (FilenameSpec.place_digits 6 n).
  split; [apply (toFixed_fixed6 NumberToString x Hx)|].
  split; [apply length_place_digits|].
  split; [apply decimal_digits_nonempty|].
  destruct (decimal_digits_read (n / 10 ^ 6)) as [Hr Hd].
  destruct (place_digits_read 6 n (n / 10 ^ 6)%N) as [Hp Hpd].
  split; [rewrite all_chars_app, Hd, Hpd; reflexivity|].
  rewrite read_digits_app, Hr, Hp.
  change (10 ^ N.of_nat 6)%N with (10 ^ 6)%N.
  assert (E : (n / 10 ^ 6 * 10 ^ 6 + n mod 10 ^ 6 = n)%N).
  { pose proof (N.div_mod n (10 ^ 6)). lia. }
  rewrite E. unfold n. rewrite Z2N.id by (apply nearest_integer_nonneg, Qabs_nonneg).
  apply (nearest_integer_half (Qabs x) 6).
Qed.

Lemma coordinate_segment_accuracy_witness :
  exists whole fraction,
    JS.toFixed (fun _ => "") (- (41015137 # 1000000)) 6
    = "-" ++ whole ++ "." ++ fraction
    /\ String.length fraction = 6%nat.
Proof.
  destruct (coordinate_segment_accuracy (fun _ => "") (- (41015137 # 1000000)) eq_refl)
    as (whole & fraction & H1 & H2 & _).
  exists whole, fraction. split; [exact H1|exact H2].
Defined.

End FilenameMore.

(** ** The haversine distance *)

Section HaversineMore.

Local Open Scope R_scope.

Lemma asin_abs_sin (t : R) : Rabs t <= PI / 2 -> asin (Rabs (sin t)) = Rabs t.
Proof.
  intros H. pose proof PI_RGT_0 as Hpi.
  destruct (Rle_or_lt 0 t) as [Ht|Ht].
  - rewrite (Rabs_pos_eq t) in * by assumption.
    rewrite Rabs_pos_eq by (apply sin_ge_0; lra).
    apply asin_sin. lra.
  - rewrite (Rabs_left t) in * by assumption.
    assert (Hs : 0 <= sin (- t)) by (apply sin_ge_0; lra).
    rewrite sin_neg in Hs.
    rewrite Rabs_left1 by lra. rewrite <- sin_neg.
    apply asin_sin. lra.
Qed.

Lemma toRad_abs (x : Q) : Rabs (Haversine.toRad x) = Q2R (Qabs x) * PI / 180.
Proof.
  pose proof PI_RGT_0 as Hpi. unfold Haversine.toRad.
  destruct (Qlt_le_dec x 0) as [H|H].
  - rewrite (Qeq_eqR _ _ (Qabs_neg x (Qlt_le_weak _ _ H))), Q2R_opp.
    apply Qlt_Rlt in H. rewrite RMicromega.Q2R_0 in H.
    rewrite Rabs_left by nra. field.
  - rewrite (Qeq_eqR _ _ (Qabs_pos x H)).
    apply Qle_Rle in H. rewrite RMicromega.Q2R_0 in H.
    rewrite Rabs_pos_eq by nra. reflexivity.
Qed.

(** X5.  Along a meridian (equal longitudes, latitudes at most 180 degrees
    apart) the distance is the length of the arc: the radius times the
    difference of latitude in radians. *)
Theorem distanceMeters_along_meridian (a b : Coordinate) :
  (longitude a == longitude b)%Q ->
  (Qabs (latitude b - latitude a) <= 180)%Q ->
  Haversine.distanceMeters (Some a) (Some b)
  = 6371000 * (Q2R (Qabs (latitude b - latitude a)) * PI / 180).
Proof.
  intros Hlon Hlat. pose proof PI_RGT_0 as Hpi.
  unfold Haversine.distanceMeters.
  assert (Hz : Haversine.toRad (longitude b - longitude a) = 0).
  { unfold Haversine.toRad.
    assert (E : (longitude b - longitude a == 0)%Q) by (rewrite Hlon; ring).
    rewrite (Qeq_eqR _ _ E), RMicromega.Q2R_0. field. }
  rewrite Hz. replace (0 / 2) with 0 by field. rewrite sin_0.
  set (t := Haversine.toRad (latitude b - latitude a) / 2).
  replace (sin t ^ 2 + cos (Haversine.toRad (latitude a))
                       * cos (Haversine.toRad (latitude b)) * 0 ^ 2)
    with (Rsqr (sin t)) by (unfold Rsqr; ring).
  rewrite sqrt_Rsqr_abs.
  assert (Ht : Rabs t = Q2R (Qabs (latitude b - latitude a)) * PI / 180 / 2).
  { unfold t. unfold Rdiv at 1. rewrite Rabs_mult, toRad_abs.
    rewrite (Rabs_pos_eq (/ 2)) by lra. reflexivity. }
  assert (Hb : Rabs t <= PI / 2).
  { rewrite Ht. apply Qle_Rle in Hlat.
    replace (Q2R 180) with 180 in Hlat by (unfold Q2R; simpl; field).
    nra. }
  rewrite (asin_abs_sin t Hb), Ht. field.
Qed.

Lemma distanceMeters_along_meridian_witness :
  Haversine.distanceMeters
    (Some {| latitude := 41; longitude := 29 |})
    (Some {| latitude := 41 + (1 # 1000); longitude := 29 |})
  = 6371000 * (Q2R (Qabs ((41 + (1 # 1000)) - 41)) * PI / 180).
Proof.
  apply (distanceMeters_along_meridian
           {| latitude := 41; longitude := 29 |}
           {| latitude := 41 + (1 # 1000); longitude := 29 |}).
  - reflexivity.
  - simpl. discriminate.
Defined.

End HaversineMore.

(** ** The controller *)

Lemma Qlt_bool_false_iff' (x y : Q) : JS.Qlt_bool x y = false -> (y <= x)%Q.
Proof.
  unfold JS.Qlt_bool. rewrite negb_false_iff. apply Qle_bool_iff.
Qed.

Section ControllerMore.

Import Controller ControllerSpec CodeSpec.

Local Open Scope js_scope.
Local Open Scope list_scope.

Variable NumberToString : Q -> string.
Variable userAgent : jsstring.
Variable today : jsstring.

Local Abbreviation step := (Controller.step NumberToString userAgent).
Local Abbreviation run := (Controller.run NumberToString userAgent).
Local Abbreviation init := (Controller.initialState today).

Ltac split_match :=
  match goal with
  | |- context [match ?x with _ => _ end] => destruct x eqn:?
  | H : context [match ?x with _ => _ end] |- _ => destruct x eqn:?
  end.

Ltac open_handlers :=
  unfold Controller.step, spawn, continue, with_render, resume, cameraError,
    upload, onStop, onStart, startCamera, createSession, withSessionId,
    captureAndUpload, also, finish, suspend, onPosition, onBatteryLevel,
    onStorageEstimate, handleOrient in *.

Ltac by_cases :=
  open_handlers; repeat split_match; subst; try discriminate;
  repeat match goal with
         | H : Some _ = Some _ |- _ => injection H as <-
         end.

Lemma run_step (s : State) (e : event) (es : list event) :
  fst (run s (e :: es)) = fst (run (fst (step s e)) es).
Proof. apply run_cons. Qed.

(** *** The position, the anchor and the distance *)

Lemma step_position (s : State) (e : event) :
  let r := render s in
  let r' := render (fst (step s e)) in
  match e with
  | Position la lo =>
      let c := {| latitude := la; longitude := lo |} in
      coords r' = Some c
      /\ startCoords r' = match startCoords r with Some a => Some a | None => Some c end
      /\ distance r' = match startCoords r with
                       | Some a => Haversine.distanceMeters (Some a) (Some c)
                       | None => distance r
                       end
  | _ => coords r' = coords r /\ startCoords r' = startCoords r
         /\ distance r' = distance r
  end.
Proof.
  destruct e; by_cases; cbn -[Haversine.distanceMeters];
    repeat split; congruence.
Qed.

Lemma run_startCoords_kept (es : list event) (s : State) (a : Coordinate) :
  startCoords (render s) = Some a ->
  startCoords (render (fst (run s es))) = Some a.
Proof.
  revert s. induction es as [|e es IH]; intros s H; [exact H|].
  rewrite run_step. apply IH.
  pose proof (step_position s e) as Hp. cbv zeta in Hp.
  destruct e; try (destruct Hp as (_ & -> & _); exact H).
  destruct Hp as (_ & -> & _). rewrite H. reflexivity.
Qed.

Lemma run_startCoords_unset (es : list event) (s : State) :
  (forall la lo, ~ In (Position la lo) es) ->
  startCoords (render (fst (run s es))) = startCoords (render s).
Proof.
  revert s. induction es as [|e es IH]; intros s H; [reflexivity|].
  rewrite run_step, IH by (intros la lo Hin; apply (H la lo); right; exact Hin).
  pose proof (step_position s e) as Hp. cbv zeta in Hp.
  destruct e; try (destruct Hp as (_ & -> & _); reflexivity).
  exfalso. apply (H lat0 lng0). left. reflexivity.
Qed.

(** X6.  The anchor [startCoords] changes in one way only: the first position
    ever received sets it.  A position received while no anchor is set
    always sets it, to that position, so after any run the anchor is the
    first position of the run.  No later position, no stop and no new
    session changes or clears it. *)
Theorem anchor_set_once (s : State) (e : event) :
  (startCoords (render (fst (step s e))) <> startCoords (render s) ->
   exists la lo,
     e = Position la lo
     /\ startCoords (render s) = None
     /\ startCoords (render (fst (step s e)))
        = Some {| latitude := la; longitude := lo |})
  /\ (forall la lo,
        startCoords (render s) = None ->
        startCoords (render (fst (step s (Position la lo))))
        = Some {| latitude := la; longitude := lo |})
  /\ (forall es1 la lo es2,
        (forall la' lo', ~ In (Position la' lo') es1) ->
        startCoords (render (fst (run init (es1 ++ Position la lo :: es2))))
        = Some {| latitude := la; longitude := lo |})
  /\ (forall a es,
        startCoords (render s) = Some a ->
        startCoords (render (fst (run s es))) = Some a).
Proof.
  assert (Hset : forall s0 la lo,
             startCoords (render s0) = None ->
             startCoords (render (fst (step s0 (Position la lo))))
             = Some {| latitude := la; longitude := lo |}).
  { intros s0 la lo H0.
    pose proof (step_position s0 (Position la lo)) as Hp. cbv zeta in Hp.
    destruct Hp as (_ & -> & _). rewrite H0. reflexivity. }
  split; [|split; [|split]].
  - pose proof (step_position s e) as Hp. cbv zeta in Hp.
    destruct e;
      try (destruct Hp as (_ & -> & _); intros H; exfalso; apply H; reflexivity).
    destruct Hp as (_ & -> & _).
    destruct (startCoords (render s)) as [a|].
    + intros H. exfalso. apply H. reflexivity.
    + intros _. exists lat0, lng0. repeat split; reflexivity.
  - intros la lo H. apply Hset. exact H.
  - intros es1 la lo es2 Hno.
    rewrite (run_app NumberToString userAgent), run_step.
    apply run_startCoords_kept. apply Hset.
    rewrite (run_startCoords_unset es1 init Hno). reflexivity.
  - intros a es H. apply run_startCoords_kept. exact H.
Qed.

Lemma distance_to_itself (a : Coordinate) :
  Haversine.distanceMeters (Some a) (Some a) = 0%R.
Proof.
  unfold Haversine.distanceMeters. rewrite !toRad_diag.
  replace (0 / 2)%R with 0%R by field. rewrite sin_0.
  replace (0 ^ 2 + cos (Haversine.toRad (latitude a))
                   * cos (Haversine.toRad (latitude a)) * 0 ^ 2)%R with 0%R by ring.
  rewrite sqrt_0, asin_0. ring.
Qed.

Lemma step_distance_anchor (s : State) (e : event) :
  distance (render s)
  = Haversine.distanceMeters (startCoords (render s)) (coords (render s)) ->
  distance (render (fst (step s e)))
  = Haversine.distanceMeters (startCoords (render (fst (step s e))))
      (coords (render (fst (step s e)))).
Proof.
  intros H. pose proof (step_position s e) as Hp. cbv zeta in Hp.
  destruct e; try (destruct Hp as (-> & -> & ->); exact H).
  destruct Hp as (-> & -> & ->).
  destruct (startCoords (render s)) as [a|]; [reflexivity|].
  rewrite H. rewrite distance_to_itself. reflexivity.
Qed.

(** X7.  In every state the controller reaches, the distance it shows is the
    haversine distance from the anchor to the position last received (0
    as long as there is none). *)
Theorem distance_from_anchor (es : list event) :
  let r := render (fst (run init es)) in
  distance r = Haversine.distanceMeters (startCoords r) (coords r).
Proof.
  assert (H : forall es s,
             distance (render s)
             = Haversine.distanceMeters (startCoords (render s)) (coords (render s)) ->
             distance (render (fst (run s es)))
             = Haversine.distanceMeters (startCoords (render (fst (run s es))))
                 (coords (render (fst (run s es))))).
  { clear es. induction es as [|e es IH]; intros s H; [exact H|].
    rewrite run_step. apply IH. apply step_distance_anchor. exact H. }
  apply H. reflexivity.
Qed.

(** *** Started and capturing *)

Lemma step_started_capturing (s : State) (e : event) :
  started (render s) = capturing (render s) ->
  started (render (fst (step s e))) = capturing (render (fst (step s e))).
Proof.
  destruct e; by_cases; cbn -[Haversine.distanceMeters]; intros H;
    first [reflexivity | assumption | congruence].
Qed.

(** X8.  [started] and [capturing] always have the same value. *)
Theorem started_iff_capturing (es : list event) :
  started (render (fst (run init es))) = capturing (render (fst (run init es))).
Proof.
  assert (H : forall es s,
             started (render s) = capturing (render s) ->
             started (render (fst (run s es))) = capturing (render (fst (run s es)))).
  { clear es. induction es as [|e es IH]; intros s H; [exact H|].
    rewrite run_step. apply IH. apply step_started_capturing. exact H. }
  apply H. reflexivity.
Qed.

(** X9.  A session becomes started in one way only: a call of [onStart] is
    handed, by the JSON body of the response to its session request, a
    session id that is neither missing nor empty; and whenever that
    happens the session does become started and capturing.  A rejected
    request, an unreadable body or a body without id leaves it as it
    was. *)
Theorem started_by_session_id (s : State) (e : event) :
  (started (render (fst (step s e))) = true ->
   started (render s) = true
   \/ exists id r sid,
        e = Settle id (Resolved (VJson sid))
        /\ lookup id (tasks s) = Some (KJson r ByStart)
        /\ falsy_id sid = false)
  /\ (forall id r sid,
        e = Settle id (Resolved (VJson sid)) ->
        lookup id (tasks s) = Some (KJson r ByStart) ->
        falsy_id sid = false ->
        started (render (fst (step s e))) = true
        /\ capturing (render (fst (step s e))) = true
        /\ lookup id (tasks (fst (step s e))) = None).
Proof.
  split.
  - destruct e; by_cases; cbn -[Haversine.distanceMeters]; intros H;
      try (left; first [assumption | reflexivity | congruence]);
      try discriminate.
    all: right; eexists _, _, _; repeat split; eassumption.
  - intros id r sid -> Hk Hs. unfold Controller.step. rewrite Hk.
    unfold resume, withSessionId. rewrite Hs. unfold continue. cbn.
    repeat split. apply lookup_remove_same.
Qed.

(** *** The camera *)

(** X10.  A camera that cannot be opened does not stop [onStart]: the failure
    is reported by an alert, the session request is sent all the same,
    and when the backend answers with an id the session is started and
    capturing, with no stream attached to the video element by this
    call. *)
Theorem camera_failure_not_fatal
    (s : State) (id : nat) (r : Render) (p : Coordinate)
    (message : jsstring) (status : N) (sid : option jsstring) :
  lookup id (tasks s) = Some (KGetUserMedia r) ->
  siteName r <> "" ->
  coords r = Some p ->
  falsy_id sid = false ->
  let answers :=
    [Settle id (Rejected message);
     Settle id (Resolved (VResponse status));
     Settle id (Resolved (VJson sid))] in
  snd (run s answers)
  = [Alert (CameraFailed (Reason message)); PostSessions (session_body userAgent r p)]
  /\ started (render (fst (run s answers))) = true
  /\ capturing (render (fst (run s answers))) = true
  /\ videoRef (fst (run s answers)) = videoRef s.
Proof.
  intros Hk Hsite Hpos Hsid answers. unfold answers.
  assert (Ht : truthy_string (siteName r) = true).
  { unfold truthy_string.
    destruct (siteName r); [contradiction Hsite; reflexivity|reflexivity]. }
  set (s1 := mkState (render s) (videoRef s)
               (park id (Some (KFetchSession r ByStart)) (tasks s)) (next_id s)).
  set (s2 := mkState (render s) (videoRef s)
               (park id (Some (KJson r ByStart)) (tasks s1)) (next_id s)).
  set (s3 := mkState (setCapturing true (setStarted true (render s))) (videoRef s)
               (park id None (tasks s2)) (next_id s)).
  assert (H1 : step s (Settle id (Rejected message))
               = (s1, [Alert (CameraFailed (Reason message));
                       PostSessions (session_body userAgent r p)])).
  { unfold Controller.step. rewrite Hk.
    unfold resume, cameraError, createSession. rewrite Hpos, Ht. reflexivity. }
  assert (H2 : step s1 (Settle id (Resolved (VResponse status))) = (s2, [])).
  { unfold Controller.step. unfold s1 at 1. cbn [tasks]. rewrite lookup_park_same.
    reflexivity. }
  assert (H3 : step s2 (Settle id (Resolved (VJson sid))) = (s3, [])).
  { unfold Controller.step. unfold s2 at 1. cbn [tasks]. rewrite lookup_park_same.
    unfold resume, withSessionId. rewrite Hsid. reflexivity. }
  cbn [Controller.run]. rewrite H1, H2, H3.
  split; [reflexivity|]. split; [reflexivity|]. split; reflexivity.
Qed.

Lemma clamp_in_range (zmin zmax desired : Q) :
  (zmin <= zmax)%Q ->
  (zmin <= Qmin zmax (Qmax zmin desired) <= zmax)%Q.
Proof.
  intros H. split.
  - apply Q.min_glb; [exact H|apply Q.le_max_l].
  - apply Q.le_min_l.
Qed.

(** X11.  The zoom asked of the camera always lies in the range the camera
    advertises (when that range is not empty): the lower end in mode
    '0.5x', and 1 in mode '1x' when the range contains 1.  It is asked
    only once the video plays, and the [zoom] state changes only when
    the camera has accepted the constraint, to the value asked. *)
Theorem zoom_within_capabilities (s : State) (e : event) :
  (forall to,
      In (ApplyConstraints to) (snd (step s e)) ->
      exists id r stream zmin zmax,
        e = Settle id (Resolved VUndefined)
        /\ lookup id (tasks s) = Some (KPlay r stream)
        /\ zoomCap stream = Some (zmin, zmax)
        /\ lookup id (tasks (fst (step s e))) = Some (KApplyConstraints r to)
        /\ ((zmin <= zmax)%Q ->
            (zmin <= to <= zmax)%Q
            /\ (mode r = Half -> (to == zmin)%Q)
            /\ (mode r = One -> (zmin <= 1 <= zmax)%Q -> (to == 1)%Q)))
  /\ (zoom (render (fst (step s e))) <> zoom (render s) ->
      exists id r to,
        e = Settle id (Resolved VUndefined)
        /\ lookup id (tasks s) = Some (KApplyConstraints r to)
        /\ zoom (render (fst (step s e))) = to).
Proof.
  split.
  - intros to Hin.
    destruct e; try (revert Hin; by_cases; cbn; intuition discriminate).
    unfold Controller.step in *.
    destruct (lookup id (tasks s)) as [k|] eqn:Ek; [|destruct Hin].
    destruct k as [r|r st|r t|r c|r c|r sid|r];
      try (revert Hin; by_cases; cbn; intuition discriminate).
    destruct o as [[]|];
      try (revert Hin; by_cases; cbn; intuition discriminate).
    unfold resume in *.
    destruct (hasCapabilities st) eqn:Eh;
      [|revert Hin; by_cases; cbn; intuition discriminate].
    destruct (zoomCap st) as [[zmin zmax]|] eqn:Ez;
      [|revert Hin; by_cases; cbn; intuition discriminate].
    cbn in Hin. destruct Hin as [Hin|[]]. injection Hin as <-.
    exists id, r, st, zmin, zmax.
    split; [reflexivity|]. split; [exact Ek|]. split; [exact Ez|].
    split; [cbn; rewrite Nat.eqb_refl; reflexivity|].
    intros Hr. split; [apply clamp_in_range; exact Hr|]. split.
    + intros ->. rewrite Q.max_l by apply Qle_refl. apply Q.min_r. exact Hr.
    + intros -> [H1 H2]. rewrite Q.max_r by exact H1. apply Q.min_r. exact H2.
  - destruct e; by_cases; cbn -[Haversine.distanceMeters]; intros H;
      try (exfalso; apply H; reflexivity).
    all: eexists _, _, _; repeat split; eassumption.
Qed.

(** *** Readiness *)

Lemma step_readiness (s : State) (e : event) :
  let r := render s in
  let r' := render (fst (step s e)) in
  batteryLow r'
  = match e with
    | BatteryLevel l => Qle_bool l (15 # 100)
    | _ => batteryLow r
    end
  /\ storageOk r'
     = match e with
       | StorageEstimate (Some q) (Some u) =>
           if truthy_number q && truthy_number u
           then JS.Qlt_bool (inject_Z (100 * 1024 * 1024)) (q - u)
           else storageOk r
       | _ => storageOk r
       end.
Proof.
  cbv zeta. pose proof (step_keeps_sensors NumberToString userAgent s e) as Hk.
  destruct e;
    try (destruct Hk as (f & Hf & ->);
         destruct (Hf (render s)) as (_&_&_&_&_&_&Hb&Hs&_); split; assumption);
    try (split; reflexivity).
  - cbn. unfold onPosition. destruct (startCoords (render s)); split; reflexivity.
  - cbn. unfold onStorageEstimate. repeat split_match; split; reflexivity.
  - cbn. unfold handleOrient. repeat split_match; split; reflexivity.
Qed.

Lemma last_battery_seen (es : list event) (l : Q) :
  last_battery es (Some l)
  = match last_battery es None with
    | Some l' => Some l'
    | None => Some l
    end.
Proof.
  revert l. induction es as [|e es IH]; intros l; [reflexivity|].
  destruct e; cbn [last_battery]; try apply IH.
  rewrite (IH level). destruct (last_battery es None); reflexivity.
Qed.

Lemma run_batteryLow (es : list event) :
  forall s : State,
    batteryLow (render (fst (run s es)))
    = match last_battery es None with
      | Some l => Qle_bool l (15 # 100)
      | None => batteryLow (render s)
      end.
Proof.
  induction es as [|e es IH]; intros s; [reflexivity|].
  rewrite run_step, IH.
  pose proof (proj1 (step_readiness s e)) as Hb. cbv zeta in Hb.
  destruct e; cbn [last_battery]; try (rewrite Hb; reflexivity).
  rewrite last_battery_seen, Hb.
  destruct (last_battery es None); reflexivity.
Qed.

Lemma run_storage_refused (es : list event) :
  forall s : State,
    storageOk (render (fst (run s es))) = false ->
    storageOk (render s) = false
    \/ exists q u,
         In (StorageEstimate (Some q) (Some u)) es
         /\ ~ (q == 0)%Q /\ ~ (u == 0)%Q
         /\ (q - u <= inject_Z (100 * 1024 * 1024))%Q.
Proof.
  induction es as [|e es IH]; intros s H; [left; exact H|].
  rewrite run_step in H. destruct (IH _ H) as [H1|(q & u & Hin & Hrest)].
  - pose proof (proj2 (step_readiness s e)) as Hs. cbv zeta in Hs.
    rewrite Hs in H1.
    destruct e; try (left; exact H1).
    destruct quota as [q|]; [|left; exact H1].
    destruct usage as [u|]; [|left; exact H1].
    destruct (truthy_number q) eqn:Eq; [|left; exact H1].
    destruct (truthy_number u) eqn:Eu; [|left; exact H1].
    cbn [andb] in H1. right. exists q, u.
    split; [left; reflexivity|].
    unfold truthy_number in Eq, Eu.
    apply negb_true_iff in Eq. apply negb_true_iff in Eu.
    split; [intros E; apply Qeq_bool_iff in E; congruence|].
    split; [intros E; apply Qeq_bool_iff in E; congruence|].
    apply Qlt_bool_false_iff'. exact H1.
  - right. exists q, u. split; [right; exact Hin|exact Hrest].
Qed.

(** X12.  Readiness is fail-open and follows the latest reading.  [batteryLow]
    is false until a battery level arrives and then tells whether the
    latest level is at most 0.15; nothing else changes it.  [storageOk]
    is true unless some storage estimate with a non-zero quota and a
    non-zero usage showed at most 100 MiB free: an estimate that lacks
    one of the two, or reports 0 for one of them, is ignored. *)
Theorem readiness_fail_open (es : list event) :
  let r := render (fst (run init es)) in
  batteryLow r
  = match last_battery es None with
    | Some l => Qle_bool l (15 # 100)
    | None => false
    end
  /\ (storageOk r = false ->
      exists q u,
        In (StorageEstimate (Some q) (Some u)) es
        /\ ~ (q == 0)%Q /\ ~ (u == 0)%Q
        /\ (q - u <= inject_Z (100 * 1024 * 1024))%Q).
Proof.
  cbv zeta. split.
  - apply (run_batteryLow es init).
  - intros H. destruct (run_storage_refused es init H) as [H0|H0];
      [discriminate H0|exact H0].
Qed.

(** *** Stopping *)

(** X13.  Stopping cancels and resets nothing: it clears [started] and
    [capturing] and stops the tracks of an attached stream, and leaves
    the pending calls, the counter, the anchor and the baseline as they
    are; a pending call, resumed after the stop, does exactly what it
    would have done without it, so an upload in flight still goes out
    and still advances the counter. *)
Theorem onStop_cancels_nothing (s : State) :
  capturing (render s) = true ->
  let s' := fst (step s ClickStop) in
  started (render s') = false
  /\ capturing (render s') = false
  /\ tasks s' = tasks s
  /\ videoRef s' = videoRef s
  /\ seq (render s') = seq (render s)
  /\ startCoords (render s') = startCoords (render s)
  /\ angleBaseline (render s') = angleBaseline (render s)
  /\ snd (step s ClickStop)
     = match videoRef s with
       | Some {| srcObject := Some _ |} => [StopTracks]
       | _ => []
       end
  /\ (forall id o, snd (step s' (Settle id o)) = snd (step s (Settle id o)))
  /\ (forall e, upload_resolves s' e = upload_resolves s e).
Proof.
  intros Hc s'.
  assert (Hs : s' = mkState (setStarted false (setCapturing false (render s)))
                      (videoRef s) (tasks s) (next_id s)).
  { unfold s', Controller.step. rewrite Hc. reflexivity. }
  rewrite Hs.
  split; [reflexivity|]. split; [reflexivity|]. split; [reflexivity|].
  split; [reflexivity|]. split; [reflexivity|]. split; [reflexivity|].
  split; [reflexivity|]. split.
  - unfold Controller.step. rewrite Hc. unfold spawn, onStop. cbn.
    destruct (videoRef s) as [[[st|]]|]; reflexivity.
  - split.
    + intros id o. unfold Controller.step. cbn [tasks videoRef].
      destruct (lookup id (tasks s)) as [k|]; [|reflexivity].
      destruct (resume NumberToString userAgent (videoRef s) k o); reflexivity.
    + intros e. reflexivity.
Qed.

(** *** What a call sends *)

Lemma capture_call_pending id r past k :
  capture_call id r past k -> capture_pending r k.
Proof.
  unfold capture_call, capture_pending.
  destruct k as [[| | |? []|? []| |]|]; try exact (fun H => H).
  intros [H _]. exact H.
Qed.

(** The form a capture uploads is filled from the render of its
    trigger. *)
Lemma capture_pending_form id (r : Render) (s : State) (o : settlement) (f : PhotoForm) :
  capture_pending r (lookup id (tasks s)) ->
  In (PostPhotos f) (snd (step s (Settle id o))) ->
  exists p sid,
    coords r = Some p
    /\ snd (step s (Settle id o)) = [PostPhotos f]
    /\ f = {| session_id := id_to_string sid;
              form_seq := seq r + 1;
              lat := latitude p;
              lng := longitude p;
              tilt_deg := pitchRef r;
              heading_deg := headingRef r;
              form_zoom := zoom r;
              filename :=
                Filename.formatFilename NumberToString
                  {| Filename.arg_siteName := siteName r;
                     Filename.arg_date := date r;
                     Filename.arg_seq := seq r + 1;
                     Filename.arg_lat := latitude p;
                     Filename.arg_lng := longitude p |} |}.
Proof.
  intros HJ. unfold Controller.step.
  destruct (lookup id (tasks s)) as [k|] eqn:Ek; [|intros []].
  destruct k as [r'|r' st|r' to|r' c|r' c|r' sid|r']; cbn in HJ; try contradiction;
    try (destruct c; [contradiction|]); subst r';
    destruct o as [[]|]; cbn; try (intros []; fail);
    try (intros [H|[]]; discriminate H);
    try (intros [H|[H|[]]]; discriminate H).
  - unfold captureAndUpload. destruct (videoRef s); cbn;
      [intros [H|[H|[]]]; discriminate H|intros []].
  - unfold upload. destruct (coords r) as [p|]; cbn; [|intros []].
    intros [H|[]]. injection H as <-.
    exists p, sid. split; [reflexivity|]. split; reflexivity.
Qed.

(** X14.  The metadata of an upload are those of the moment of the trigger:
    position, tilt, heading, zoom, site name and date are read from the
    render in which the capture button was pressed, even when position
    or orientation have changed while the session request and the image
    were pending; and the file name is [formatFilename] of the very
    sequence number and coordinates the form carries. *)
Theorem upload_metadata_from_trigger
    (es0 es : list event) (o : settlement) (f : PhotoForm) :
  let s := fst (run init es0) in
  let s1 := fst (step s ClickCapture) in
  capture_enabled (render s) = true ->
  In (PostPhotos f) (snd (step (fst (run s1 es)) (Settle (next_id s) o))) ->
  exists p,
    coords (render s) = Some p
    /\ lat f = latitude p /\ lng f = longitude p
    /\ tilt_deg f = pitchRef (render s)
    /\ heading_deg f = headingRef (render s)
    /\ form_zoom f = zoom (render s)
    /\ filename f
       = Filename.formatFilename NumberToString
           {| Filename.arg_siteName := siteName (render s);
              Filename.arg_date := date (render s);
              Filename.arg_seq := form_seq f;
              Filename.arg_lat := lat f;
              Filename.arg_lng := lng f |}.
Proof.
  intros s s1 He Hin.
  assert (Hf : fresh_ids s)
    by (apply run_fresh_ids, (init_fresh_ids today)).
  assert (Hv : videoRef s <> None) by (apply run_videoRef; discriminate).
  destruct (capture_call_trigger NumberToString userAgent s Hf Hv He) as [Hid HJ].
  destruct (capture_call_run NumberToString userAgent (next_id s) (render s) es [] _ Hid HJ)
    as [_ HJ'].
  apply capture_call_pending in HJ'.
  destruct (capture_pending_form _ _ _ o f HJ' Hin) as (p & sid & Hp & _ & ->).
  exists p. cbn. repeat split; try reflexivity. exact Hp.
Qed.

Lemma start_call_settle id (r : Render) (s : State) (o : settlement) :
  start_call r (lookup id (tasks s)) ->
  start_call r (lookup id (tasks (fst (step s (Settle id o)))))
  /\ forall b, In (PostSessions b) (snd (step s (Settle id o))) ->
       exists p,
         coords r = Some p /\ siteName r <> ""
         /\ b = session_body userAgent r p.
Proof.
  intros HJ. unfold Controller.step.
  destruct (lookup id (tasks s)) as [k|] eqn:Ek.
  2:{ cbn [fst snd]. rewrite Ek. split; [exact I|intros b []]. }
  destruct (resume NumberToString userAgent (videoRef s) k o) as [x|] eqn:Er.
  2:{ cbn [fst snd]. rewrite Ek. split; [exact HJ|intros b []]. }
  unfold continue. cbn [fst snd tasks]. rewrite lookup_park_same. clear Ek.
  assert (Hsite : forall p, coords r = Some p -> truthy_string (siteName r) = true ->
            forall b, PostSessions (session_body userAgent r p) = PostSessions b ->
            exists p', coords r = Some p' /\ siteName r <> ""
                       /\ b = session_body userAgent r p').
  { intros p Hp Ht b Hb. injection Hb as <-. exists p.
    split; [exact Hp|]. split; [|reflexivity].
    intros E. rewrite E in Ht. discriminate Ht. }
  destruct k as [r'|r' st|r' to|r' c|r' c|r' sid|r']; cbn in HJ; try contradiction;
    try (destruct c; [|contradiction]); subst r';
    unfold resume, cameraError, createSession, withSessionId in Er;
    repeat split_match; try discriminate; injection Er as <-; cbn;
    (split; [try exact I; reflexivity|]);
    intros b Hb;
    repeat (destruct Hb as [Hb|Hb];
            [first [discriminate Hb
                   | eapply Hsite; [reflexivity|reflexivity|exact Hb]]|]);
    contradiction.
Qed.

Lemma start_call_run id (r : Render) (es : list event) :
  forall s : State,
    (id < next_id s)%nat ->
    start_call r (lookup id (tasks s)) ->
    start_call r (lookup id (tasks (fst (run s es)))).
Proof.
  induction es as [|e es IH]; intros s Hid HJ; [exact HJ|].
  rewrite run_step. apply IH.
  - pose proof (step_next_id NumberToString userAgent s e). lia.
  - destruct e;
      try (rewrite step_other_call by (try assumption; discriminate); exact HJ).
    destruct (Nat.eq_dec id0 id) as [->|Hne].
    + apply start_call_settle. exact HJ.
    + rewrite step_other_call; [exact HJ|assumption|].
      intros o' E. injection E as E _. congruence.
Qed.

(** X15.  The session request of a call of [onStart] carries the site name,
    the date and the position of the render in which the start button
    was pressed: what the operator types, and the positions that arrive,
    while the camera is being opened are not used. *)
Theorem session_request_from_click
    (es0 es : list event) (confirmAnswer : bool) (o : settlement) (b : SessionBody) :
  let s := fst (run init es0) in
  let s1 := fst (step s (ClickStart confirmAnswer)) in
  capturing (render s) = false ->
  storageOk (render s) = true ->
  (batteryLow (render s) = true -> confirmAnswer = true) ->
  In (PostSessions b) (snd (step (fst (run s1 es)) (Settle (next_id s) o))) ->
  exists p,
    coords (render s) = Some p
    /\ siteName (render s) <> ""
    /\ b = session_body userAgent (render s) p.
Proof.
  intros s s1 Hc Hs Hb Hin.
  assert (Hs1 : s1 = mkState (render s) (videoRef s)
                       ((next_id s, KGetUserMedia (render s)) :: tasks s)
                       (S (next_id s))).
  { unfold s1, Controller.step, onStart, startCamera. rewrite Hc, Hs.
    destruct (batteryLow (render s)); [rewrite (Hb eq_refl)|]; reflexivity. }
  assert (HJ : start_call (render s) (lookup (next_id s) (tasks (fst (run s1 es))))).
  { apply start_call_run.
    - rewrite Hs1. cbn. lia.
    - rewrite Hs1. cbn. rewrite Nat.eqb_refl. reflexivity. }
  exact (proj2 (start_call_settle _ _ _ o HJ) b Hin).
Qed.

(** *** The camera comes first *)

Lemma run_out_cons (s : State) (e : event) (es : list event) :
  snd (run s (e :: es)) = (snd (step s e) ++ snd (run (fst (step s e)) es))%list.
Proof.
  simpl. destruct (Controller.step NumberToString userAgent s e) as [s1 o1].
  simpl. destruct (Controller.run NumberToString userAgent s1 es) as [s2 o2].
  reflexivity.
Qed.

Lemma idle_step (s : State) (e : event) (rest : list effect) :
  idle s ->
  camera_first (snd (step s e) ++ rest) = true
  \/ (idle (fst (step s e))
      /\ camera_first (snd (step s e) ++ rest) = camera_first rest).
Proof.
  intros [Ht Hc]. unfold idle.
  destruct e; unfold Controller.step; rewrite ?Hc, ?Ht; cbn [andb lookup];
    try (right; split; [split; [exact Ht|exact Hc]|reflexivity]).
  - right. unfold with_render, onPosition. cbn.
    destruct (startCoords (render s)); (split; [split; [exact Ht|exact Hc]|reflexivity]).
  - right. unfold with_render, onStorageEstimate. cbn.
    repeat split_match; (split; [split; [exact Ht|exact Hc]|reflexivity]).
  - right. unfold with_render, handleOrient. cbn.
    repeat split_match; (split; [split; [exact Ht|exact Hc]|reflexivity]).
  - unfold onStart, startCamera, also, finish, suspend.
    destruct (storageOk (render s)), (batteryLow (render s)), confirmAnswer;
      unfold spawn; cbn;
      first [left; reflexivity
            | right; split; [split; [exact Ht|exact Hc]|reflexivity]].
Qed.

(** X16.  The controller never sends a request to the backend before it has
    asked for the camera: in the effects of any run from the initial
    state, no session request and no upload comes before the first
    [getUserMedia]. *)
Theorem camera_before_requests (es : list event) :
  camera_first (snd (run init es)) = true.
Proof.
  assert (H : forall es s, idle s -> camera_first (snd (run s es)) = true).
  { clear es. induction es as [|e es IH]; intros s Hi; [reflexivity|].
    rewrite run_out_cons.
    destruct (idle_step s e (snd (run (fst (step s e)) es)) Hi) as [H|[Hi' H]];
      [exact H|].
    rewrite H. apply IH. exact Hi'. }
  apply H. split; reflexivity.
Qed.

(** *** A position while a session is active *)

(** X17.  While a session is active a position is known: [capturing] is never
    true with [coords] still [null], so the position [captureAndUpload]
    reads at a capture trigger is always there. *)
Theorem position_known_while_active (es : list event) :
  let r := render (fst (run init es)) in
  capturing r = true -> exists p, coords r = Some p.
Proof.
  intros r Hc.
  assert (Hk : position_known (fst (run init es)))
    by (apply position_known_run, (position_known_init today)).
  destruct Hk as [Hk _]. specialize (Hk Hc). fold r in Hk.
  destruct (coords r) as [p|]; [exists p; reflexivity|congruence].
Qed.

(** *** A capture without site name *)

(** X18.  Clearing the site name during an active session does not stop a
    capture: the trigger raises the alert of [createSession] and sends no
    session request, but the frame is grabbed all the same, and when the
    image is ready it is uploaded with the text "undefined" as session
    id, under the next sequence number. *)
Theorem capture_without_site_name (es0 : list event) :
  let s := fst (run init es0) in
  let s1 := fst (step s ClickCapture) in
  capture_enabled (render s) = true ->
  siteName (render s) = "" ->
  snd (step s ClickCapture) = [Alert SiteAndLocationRequired; DrawImage; ToBlob]
  /\ exists f,
       snd (step s1 (Settle (next_id s) (Resolved VBlob))) = [PostPhotos f]
       /\ session_id f = "undefined"
       /\ form_seq f = (seq (render s) + 1)%N.
Proof.
  intros s s1 He Hsite.
  assert (Hv : videoRef s <> None) by (apply run_videoRef; discriminate).
  assert (Hp : exists p, coords (render s) = Some p).
  { assert (Hk : position_known s)
      by (apply position_known_run, (position_known_init today)).
    destruct Hk as [Hk _]. unfold capture_enabled in He.
    apply andb_true_iff in He. destruct He as [Hc _]. specialize (Hk Hc).
    destruct (coords (render s)) as [p|]; [exists p; reflexivity|congruence]. }
  destruct Hp as [p Hp].
  destruct (videoRef s) as [v|] eqn:Ev; [clear Hv|contradiction].
  assert (Hstep : step s ClickCapture
                  = (mkState (render s) (Some v)
                       ((next_id s, KToBlob (render s) None) :: tasks s)
                       (S (next_id s)),
                     [Alert SiteAndLocationRequired; DrawImage; ToBlob])).
  { unfold Controller.step. unfold capture_enabled in He. rewrite He.
    unfold createSession. rewrite Hp, Ev. unfold truthy_string. rewrite Hsite.
    reflexivity. }
  split; [rewrite Hstep; reflexivity|].
  unfold s1. rewrite Hstep. cbn [fst].
  unfold Controller.step. cbn [tasks lookup videoRef]. rewrite Nat.eqb_refl.
  unfold resume, upload. rewrite Hp. cbn.
  eexists. split; [reflexivity|]. split; reflexivity.
Qed.

End ControllerMore.

(** ** The further properties on concrete runs *)

Section RunsMore.

Import Controller ControllerSpec CodeSpec Scenario.

Local Open Scope js_scope.
Local Open Scope list_scope.

Lemma anchor_set_once_witness :
  (exists la lo,
      Position 41 29 = Position la lo
      /\ startCoords (render init) = None
      /\ startCoords (render (fst (step init (Position 41 29))))
         = Some {| latitude := la; longitude := lo |})
  /\ startCoords (render (fst (step (fst (step init (ClickStart true))) (Position 0 0))))
     = Some {| latitude := 0; longitude := 0 |}
  /\ startCoords
       (render (fst (run init ([ChangeSiteName "Trench Alpha!"; ClickStart true]
                                 ++ Position 41 29 :: [Position 42 30]))))
     = Some {| latitude := 41; longitude := 29 |}
  /\ startCoords
       (render (fst (run (fst (step init (Position 41 29)))
                       [Position 42 30; ClickStop])))
     = Some {| latitude := 41; longitude := 29 |}.
Proof.
  split; [|split; [|split]].
  - apply (proj1 (anchor_set_once numberToString agent day init (Position 41 29))).
    vm_compute. discriminate.
  - apply (proj1 (proj2 (anchor_set_once numberToString agent day
                           (fst (step init (ClickStart true))) ClickStop))).
    reflexivity.
  - apply (proj1 (proj2 (proj2 (anchor_set_once numberToString agent day
                                  init ClickStop)))).
    intros la lo [H|[H|[]]]; discriminate H.
  - apply (proj2 (proj2 (proj2 (anchor_set_once numberToString agent day
                                  (fst (step init (Position 41 29))) ClickStop)))).
    reflexivity.
Defined.

Lemma started_by_session_id_witness :
  let waiting :=
    fst (run init [ChangeSiteName "Trench Alpha!"; Position 41 29; ClickStart true;
                   Settle 0 (Resolved plain_stream); Settle 0 (Resolved VUndefined);
                   Settle 0 (Resolved (VResponse 200))]) in
  let answered := fst (step waiting (Settle 0 (Resolved (VJson (Some "S1"))))) in
  started (render answered) = true
  /\ capturing (render answered) = true
  /\ lookup 0 (tasks answered) = None.
Proof.
  intros waiting answered.
  eapply (proj2 (started_by_session_id numberToString agent waiting
                   (Settle 0 (Resolved (VJson (Some "S1")))))).
  - reflexivity.
  - vm_compute. reflexivity.
  - reflexivity.
Defined.

Lemma camera_failure_not_fatal_witness :
  let clicked :=
    fst (run init [ChangeSiteName "Trench Alpha!"; Position 41 29; ClickStart true]) in
  let answers :=
    [Settle 0 (Rejected "denied");
     Settle 0 (Resolved (VResponse 200));
     Settle 0 (Resolved (VJson (Some "S1")))] in
  started (render (fst (run clicked answers))) = true
  /\ capturing (render (fst (run clicked answers))) = true
  /\ videoRef (fst (run clicked answers)) = videoRef clicked.
Proof.
  intros clicked answers.
  refine (proj2 (camera_failure_not_fatal numberToString agent clicked 0
                   (render clicked) {| latitude := 41; longitude := 29 |}
                   "denied" 200 (Some "S1") _ _ _ _)).
  - vm_compute. reflexivity.
  - vm_compute. discriminate.
  - vm_compute. reflexivity.
  - reflexivity.
Defined.

Lemma zoom_within_capabilities_witness :
  let playing :=
    fst (run init [ClickStart true;
                   Settle 0 (Resolved (VStream {| hasCapabilities := true; zoomCap := Some (1 # 2, 4) |}))]) in
  exists id r stream zmin zmax,
    Settle 0 (Resolved VUndefined) = Settle id (Resolved VUndefined)
    /\ lookup id (tasks playing) = Some (KPlay r stream)
    /\ zoomCap stream = Some (zmin, zmax)
    /\ lookup id (tasks (fst (step playing (Settle 0 (Resolved VUndefined)))))
       = Some (KApplyConstraints r 1)
    /\ ((zmin <= zmax)%Q ->
        (zmin <= 1 <= zmax)%Q
        /\ (mode r = Half -> (1 == zmin)%Q)
        /\ (mode r = One -> (zmin <= 1 <= zmax)%Q -> (1 == 1)%Q)).
Proof.
  intros playing.
  apply (proj1 (zoom_within_capabilities numberToString agent playing
                  (Settle 0 (Resolved VUndefined))) 1).
  vm_compute. left. reflexivity.
Defined.

Lemma readiness_fail_open_witness :
  exists q u,
    In (StorageEstimate (Some q) (Some u)) [StorageEstimate (Some 100) (Some 50)]
    /\ ~ (q == 0)%Q /\ ~ (u == 0)%Q
    /\ (q - u <= inject_Z (100 * 1024 * 1024))%Q.
Proof.
  apply (proj2 (readiness_fail_open numberToString agent day
                  [StorageEstimate (Some 100) (Some 50)])).
  reflexivity.
Defined.

Lemma onStop_cancels_nothing_witness :
  started (render (fst (step active ClickStop))) = false
  /\ capturing (render (fst (step active ClickStop))) = false
  /\ tasks (fst (step active ClickStop)) = tasks active.
Proof.
  pose proof (onStop_cancels_nothing numberToString agent active eq_refl)
    as (H1 & H2 & H3 & _).
  split; [exact H1|]. split; [exact H2|exact H3].
Defined.

Lemma upload_metadata_from_trigger_witness :
  exists p,
    coords (render active) = Some p
    /\ lat (first_form "S2") = latitude p /\ lng (first_form "S2") = longitude p.
Proof.
  destruct (upload_metadata_from_trigger numberToString agent day
              to_active (session_answer 1 "S2") (Resolved VBlob) (first_form "S2")
              eq_refl)
    as (p & Hp & Hlat & Hlng & _).
  - vm_compute. left. reflexivity.
  - exists p. split; [exact Hp|]. split; [exact Hlat|exact Hlng].
Defined.

Lemma session_request_from_click_witness :
  let ready := fst (run init [ChangeSiteName "Trench Alpha!"; Position 41 29]) in
  let body :=
    {| site_name := "Trench Alpha!"; body_date := "2024-05-01";
       start_lat := 41; start_lng := 29; device := agent |} in
  exists p,
    coords (render ready) = Some p
    /\ siteName (render ready) <> ""
    /\ body = session_body agent (render ready) p.
Proof.
  intros ready body.
  apply (session_request_from_click numberToString agent day
           [ChangeSiteName "Trench Alpha!"; Position 41 29]
           [Settle 0 (Resolved plain_stream); ChangeSiteName "Other"]
           true (Resolved VUndefined) body eq_refl eq_refl (fun _ => eq_refl)).
  vm_compute. left. reflexivity.
Defined.

Lemma position_known_while_active_witness :
  exists p, coords (render active) = Some p.
Proof.
  apply (position_known_while_active numberToString agent day to_active).
  reflexivity.
Defined.

Lemma capture_without_site_name_witness :
  let cleared := fst (run init (to_active ++ [ChangeSiteName ""])) in
  snd (step cleared ClickCapture) = [Alert SiteAndLocationRequired; DrawImage; ToBlob].
Proof.
  intros cleared.
  apply (proj1 (capture_without_site_name numberToString agent day
                  (to_active ++ [ChangeSiteName ""]) eq_refl eq_refl)).
Defined.

End RunsMore.
